(** * Adaptive-span local attention (attention.py): model and properties

    A shallow embedding of [AdaptiveMask] and [AttentionConv] from
    [attention.py].

    Conventions of the model.
    - Python integers are [Z]; [//] is [Z.div] and [%] is [Z.modulo]
      (both floor, as in Python); a zero divisor raises.  No size is too
      large for the runtime: an allocation fails on a negative size only.
    - Python floats are exact rationals [Q].  All quantities the
      properties below talk about (spans, sizes, ramps) are small dyadic
      numbers, for which the two agree.
    - Where the runtime tells an [int] from a [float] the model does too:
      [torch.linspace] takes its step count as a [Py.number] and refuses a
      float, whatever its value.  [AdaptiveMask] keeps the value of its
      [max_size]: past the constructor the code only does arithmetic with
      it, where an [int] and the float of the same value agree.
    - A tensor is a shape with an index function.  Every operator of the
      array runtime checks shapes the way the runtime does and raises
      otherwise; an exception is a value of [error] on the left of a sum.
    - Random initialisation ([torch.randn], [init.normal_],
      [init.kaiming_normal_]) reads its values from an explicit family of
      draws, so that statements can quantify over every parameter value.
    - The exponential used by [F.softmax] is a parameter of the model. *)

From Stdlib Require Import ZArith QArith Qround Qminmax List Bool Lia Lqa Arith.
Import ListNotations.

(** ** Exceptions and the error monad *)

Inductive error : Type :=
| ZeroDivisionError
| AssertionError
| TypeError
| ValueError
| IndexError
| RuntimeError.

Definition result (A : Type) : Type := (error + A)%type.

Definition ret {A} (a : A) : result A := inr a.
Definition raise {A} (e : error) : result A := inl e.
Definition bind {A B} (m : result A) (k : A -> result B) : result B :=
  match m with
  | inl e => inl e
  | inr a => k a
  end.

Notation "'do' x <- m ; k" := (bind m (fun x => k))
  (at level 10, x pattern, m at level 100, k at level 200).

Definition raises {A} (m : result A) : Prop := exists e, m = inl e.

(** ** Python built-ins *)

Module Py.

Local Open Scope Z_scope.

(** A Python number: an [int] or a [float]. *)
Inductive number : Type :=
| Int (z : Z)
| Float (q : Q).

(** The value of a number. *)
Definition value (n : number) : Q :=
  match n with
  | Int z => inject_Z z
  | Float q => q
  end.

(** [range(a, b)] *)
Definition range (a b : Z) : list Z :=
  map (fun k => a + Z.of_nat k) (seq 0 (Z.to_nat (b - a))).

(** [a % b] *)
Definition mod_ (a b : Z) : result Z :=
  if b =? 0 then raise ZeroDivisionError else ret (a mod b).

(** [a // b] *)
Definition floordiv (a b : Z) : result Z :=
  if b =? 0 then raise ZeroDivisionError else ret (a / b).

(** [min(a, b)]: the first argument unless the second is smaller. *)
Definition min (a b : Q) : Q := if Qlt_le_dec b a then b else a.

(** [max(a, b)]: the first argument unless the second is larger. *)
Definition max (a b : Q) : Q := if Qlt_le_dec a b then b else a.

(** [math.ceil] *)
Definition ceil (q : Q) : Z := Qceiling q.

(** [int(q)]: truncation towards zero. *)
Definition int (q : Q) : Z := Z.quot (Qnum q) (Zpos (Qden q)).

(** [rows, cols = zip( * indices)] for a list of two-element lists: with
    no element [zip()] yields nothing and the unpacking fails. *)
Definition unzip2 (indices : list (Z * Z)) : result (list Z * list Z) :=
  match indices with
  | [] => raise ValueError
  | _ => ret (map fst indices, map snd indices)
  end.

(** Bounds of the slice [start:stop] on a sequence of length [n]:
    the first position and the number of positions taken. *)
Definition clip (i : Z) (n : nat) : nat :=
  let i' := if i <? 0 then i + Z.of_nat n else i in
  if i' <? 0 then 0%nat
  else if Z.of_nat n <? i' then n
  else Z.to_nat i'.

Definition slice (start stop : Z) (n : nat) : nat * nat :=
  let a := clip start n in
  let b := clip stop n in
  (a, (b - a)%nat).

(** [seq[-k:]] *)
Definition slice_last (k : Z) (n : nat) : nat * nat :=
  let a := clip (- k) n in (a, (n - a)%nat).

End Py.

(** ** The array runtime *)

Module Torch.

Record tensor : Type := mkTensor { shape : list nat; data : list nat -> Q }.

Definition numel (s : list nat) : nat := fold_right Nat.mul 1%nat s.

(** *** Lists of sizes and indices *)

Fixpoint upd {A} (n : nat) (v : A) (l : list A) : list A :=
  match l, n with
  | [], _ => []
  | _ :: l', O => v :: l'
  | a :: l', S n' => a :: upd n' v l'
  end.

Fixpoint remove_at {A} (n : nat) (l : list A) : list A :=
  match l, n with
  | [], _ => []
  | _ :: l', O => l'
  | a :: l', S n' => a :: remove_at n' l'
  end.

Fixpoint insert_at {A} (n : nat) (v : A) (l : list A) : list A :=
  match n, l with
  | O, _ => v :: l
  | S n', a :: l' => a :: insert_at n' v l'
  | S _, [] => [v]
  end.

Fixpoint idx_eqb (a b : list nat) : bool :=
  match a, b with
  | [], [] => true
  | x :: a', y :: b' => (x =? y)%nat && idx_eqb a' b'
  | _, _ => false
  end.

(** Every index of a shape, in row-major order. *)
Fixpoint indices (s : list nat) : list (list nat) :=
  match s with
  | [] => [[]]
  | d :: s' => flat_map (fun i => map (cons i) (indices s')) (seq 0 d)
  end.

(** Row-major offset of an index, and back. *)
Fixpoint ravel (s idx : list nat) : nat :=
  match s, idx with
  | _ :: s', i :: idx' => (i * numel s' + ravel s' idx')%nat
  | _, _ => 0%nat
  end.

Fixpoint unravel (s : list nat) (off : nat) : list nat :=
  match s with
  | [] => []
  | d :: s' => ((off / numel s') mod d)%nat :: unravel s' (off mod numel s')
  end.

(** *** Broadcasting *)

Fixpoint bshape_rev (a b : list nat) : option (list nat) :=
  match a, b with
  | [], _ => Some b
  | _, [] => Some a
  | x :: a', y :: b' =>
      match bshape_rev a' b' with
      | None => None
      | Some r =>
          if (x =? y)%nat then Some (x :: r)
          else if (x =? 1)%nat then Some (y :: r)
          else if (y =? 1)%nat then Some (x :: r)
          else None
      end
  end.

Definition broadcast_shapes (a b : list nat) : option (list nat) :=
  option_map (@rev nat) (bshape_rev (rev a) (rev b)).

(** The index into an operand of shape [s] that a result index reads. *)
Definition bidx (s idx : list nat) : list nat :=
  map (fun di => if (fst di =? 1)%nat then 0%nat else snd di)
      (combine s (skipn (length idx - length s) idx)).

Definition binop (f : Q -> Q -> Q) (a b : tensor) : result tensor :=
  match broadcast_shapes (shape a) (shape b) with
  | None => raise RuntimeError
  | Some s =>
      ret (mkTensor s (fun idx => f (data a (bidx (shape a) idx))
                                    (data b (bidx (shape b) idx))))
  end.

Definition add := binop Qplus.
Definition mul := binop Qmult.

(** Operators with a Python number on one side. *)
Definition pointwise (f : Q -> Q) (t : tensor) : tensor :=
  mkTensor (shape t) (fun idx => f (data t idx)).

Definition clamp (lo hi : Q) (t : tensor) : tensor :=
  pointwise (fun v => Qmin (Qmax v lo) hi) t.

(** *** Creation *)

Definition full (s : list nat) (v : Q) : tensor := mkTensor s (fun _ => v).

(** A size list given as Python integers: a negative size is refused. *)
Definition sizes (dims : list Z) : result (list nat) :=
  if existsb (fun d => d <? 0)%Z dims then raise RuntimeError
  else ret (map Z.to_nat dims).

Definition zeros (dims : list Z) : result tensor :=
  do s <- sizes dims; ret (full s 0).

(** [torch.randn( *dims)]: the values come from the draw [rnd]. *)
Definition randn (rnd : list nat -> Q) (dims : list Z) : result tensor :=
  do s <- sizes dims; ret (mkTensor s rnd).

(** The step count of [linspace]: an [int] that is not negative.  A float
    is no step count, [16.0] no more than [16.5]. *)
Definition steps_of (steps : Py.number) : result nat :=
  match steps with
  | Py.Int z => if (z <? 0)%Z then raise RuntimeError else ret (Z.to_nat z)
  | Py.Float _ => raise TypeError
  end.

(** [torch.linspace(a, b, steps)] *)
Definition linspace (a b : Q) (steps : Py.number) : result tensor :=
  do n <- steps_of steps;
  ret (mkTensor [n]
         (fun idx =>
            match idx with
            | [i] =>
                if (n =? 1)%nat then a
                else a + inject_Z (Z.of_nat i) * ((b - a) / inject_Z (Z.of_nat n - 1))
            | _ => 0
            end)).

(** *** Reductions *)

(** [t.max()] over all elements; an empty tensor has none. *)
Definition max_all (t : tensor) : result Q :=
  match map (data t) (indices (shape t)) with
  | [] => raise RuntimeError
  | v :: vs => ret (fold_left Qmax vs v)
  end.

Definition Qsum (l : list Q) : Q := fold_right Qplus 0 l.

(** [t.mean()] over all elements; of an empty tensor it is not a number. *)
Definition mean_all (t : tensor) : option Q :=
  match map (data t) (indices (shape t)) with
  | [] => None
  | vs => Some (Qsum vs / inject_Z (Z.of_nat (length vs)))
  end.

(** [t.sum(dim)] *)
Definition sum_dim (dim : nat) (t : tensor) : result tensor :=
  match nth_error (shape t) dim with
  | None => raise IndexError
  | Some n =>
      ret (mkTensor (remove_at dim (shape t))
             (fun idx => Qsum (map (fun k => data t (insert_at dim k idx)) (seq 0 n))))
  end.

(** [F.softmax(t, dim=-1)], for the exponential [exp]. *)
Definition softmax_last (exp : Q -> Q) (t : tensor) : result tensor :=
  match rev (shape t) with
  | [] => ret (pointwise (fun v => exp v / exp v) t)
  | n :: _ =>
      ret (mkTensor (shape t)
             (fun idx =>
                exp (data t idx)
                / Qsum (map (fun k => exp (data t (removelast idx ++ [k]))) (seq 0 n))))
  end.

(** *** Views and slices *)

(** [t.unsqueeze(dim)] *)
Definition unsqueeze (dim : nat) (t : tensor) : result tensor :=
  if (length (shape t) <? dim)%nat then raise IndexError
  else ret (mkTensor (insert_at dim 1%nat (shape t))
              (fun idx => data t (remove_at dim idx))).

(** [t.squeeze(dim)]: drops the axis when its size is 1, else nothing. *)
Definition squeeze (dim : nat) (t : tensor) : result tensor :=
  match nth_error (shape t) dim with
  | None => raise IndexError
  | Some n =>
      if (n =? 1)%nat
      then ret (mkTensor (remove_at dim (shape t))
                  (fun idx => data t (insert_at dim 0%nat idx)))
      else ret t
  end.

(** Positions [start .. start+len-1] of axis [dim]. *)
Definition narrow (dim start len : nat) (t : tensor) : tensor :=
  mkTensor (upd dim len (shape t))
    (fun idx => data t (upd dim (nth dim idx 0 + start)%nat idx)).

(** [t[..., start:stop, ...]] on axis [dim]. *)
Definition slice (dim : nat) (start stop : Z) (t : tensor) : result tensor :=
  match nth_error (shape t) dim with
  | None => raise IndexError
  | Some n => let '(a, len) := Py.slice start stop n in ret (narrow dim a len t)
  end.

(** [t[-k:]] *)
Definition slice_last (k : Z) (t : tensor) : result tensor :=
  match shape t with
  | [] => raise IndexError
  | n :: _ => let '(a, len) := Py.slice_last k n in ret (narrow 0 a len t)
  end.

(** [len(t)] *)
Definition len (t : tensor) : result nat :=
  match shape t with
  | [] => raise TypeError
  | n :: _ => ret n
  end.

(** [t[i]] for an integer [i] in range. *)
Definition select0 (i : nat) (t : tensor) : result tensor :=
  match shape t with
  | [] => raise IndexError
  | n :: s =>
      if (i <? n)%nat then ret (mkTensor s (fun idx => data t (i :: idx)))
      else raise IndexError
  end.

(** [t.shape[-1]] *)
Definition last_dim (t : tensor) : result nat :=
  match rev (shape t) with
  | [] => raise IndexError
  | n :: _ => ret n
  end.

(** [t.view(s)] for a full size list; [reshape] reads the elements in
    row-major order. *)
Definition reshape (s : list nat) (t : tensor) : tensor :=
  mkTensor s (fun idx => data t (unravel (shape t) (ravel s idx))).

Definition view (dims : list Z) (t : tensor) : result tensor :=
  do s <- sizes dims;
  if (numel s =? numel (shape t))%nat then ret (reshape s t)
  else raise RuntimeError.

(** [t.view( *dims, -1)]: the last size is inferred. *)
Definition view_infer_last (dims : list Z) (t : tensor) : result tensor :=
  do s <- sizes dims;
  let known := numel s in
  let n := numel (shape t) in
  if (known =? 0)%nat then raise RuntimeError
  else if (n mod known =? 0)%nat then ret (reshape (s ++ [n / known]%nat) t)
  else raise RuntimeError.

(** [t.unfold(dim, size, step)] *)
Definition unfold (dim : nat) (size step : Z) (t : tensor) : result tensor :=
  match nth_error (shape t) dim with
  | None => raise IndexError
  | Some n =>
      if ((size <? 0) || (step <=? 0) || (Z.of_nat n <? size))%Z
      then raise RuntimeError
      else
        let cnt := Z.to_nat ((Z.of_nat n - size) / step + 1) in
        ret (mkTensor (upd dim cnt (shape t) ++ [Z.to_nat size])
               (fun idx =>
                  let j := last idx 0%nat in
                  let idx' := removelast idx in
                  let w := nth dim idx' 0%nat in
                  data t (upd dim (w * Z.to_nat step + j)%nat idx')))
  end.

(** [t.split(split_size, dim)] *)
Definition split (split_size : Z) (dim : nat) (t : tensor) : result (list tensor) :=
  match nth_error (shape t) dim with
  | None => raise IndexError
  | Some n =>
      if (split_size <? 0)%Z then raise RuntimeError
      else if (split_size =? 0)%Z
      then (if (n =? 0)%nat then ret [t] else raise RuntimeError)
      else
        let s := Z.to_nat split_size in
        let chunks := Nat.max ((n + s - 1) / s) 1 in
        ret (map (fun k => narrow dim (k * s) (Nat.min s (n - k * s)) t)
               (seq 0 chunks))
  end.

(** [a, b = chunks] *)
Definition unpack2 {A} (l : list A) : result (A * A) :=
  match l with
  | [a; b] => ret (a, b)
  | _ => raise ValueError
  end.

(** [torch.cat((a, b), dim)] *)
Definition cat2 (dim : nat) (a b : tensor) : result tensor :=
  match nth_error (shape a) dim, nth_error (shape b) dim with
  | Some na, Some nb =>
      if idx_eqb (remove_at dim (shape a)) (remove_at dim (shape b))
      then ret (mkTensor (upd dim (na + nb)%nat (shape a))
                  (fun idx =>
                     let i := nth dim idx 0%nat in
                     if (i <? na)%nat then data a idx
                     else data b (upd dim (i - na)%nat idx)))
      else raise RuntimeError
  | _, _ => raise IndexError
  end.

(** [F.pad(x, [p, p, p, p])]: zero padding of the last two axes; a
    negative amount crops. *)
Definition pad2 (p : Z) (x : tensor) : result tensor :=
  match rev (shape x) with
  | w :: h :: pre =>
      let h' := (Z.of_nat h + 2 * p)%Z in
      let w' := (Z.of_nat w + 2 * p)%Z in
      if ((h' <? 0) || (w' <? 0))%Z then raise RuntimeError
      else
        ret (mkTensor (rev pre ++ [Z.to_nat h'; Z.to_nat w'])
               (fun idx =>
                  match rev idx with
                  | j :: i :: lead =>
                      let i0 := (Z.of_nat i - p)%Z in
                      let j0 := (Z.of_nat j - p)%Z in
                      if ((0 <=? i0) && (i0 <? Z.of_nat h)
                          && (0 <=? j0) && (j0 <? Z.of_nat w))%Z
                      then data x (rev lead ++ [Z.to_nat i0; Z.to_nat j0])
                      else 0
                  | _ => 0
                  end))
  | _ => raise RuntimeError
  end.

(** *** Indexed assignment *)

(** A Python index into an axis of size [n]; negative ones count from the
    end. *)
Definition wrap (n : nat) (i : Z) : result nat :=
  if ((0 <=? i) && (i <? Z.of_nat n))%Z then ret (Z.to_nat i)
  else if ((- Z.of_nat n <=? i) && (i <? 0))%Z then ret (Z.to_nat (i + Z.of_nat n))
  else raise IndexError.

Fixpoint mapM {A B} (f : A -> result B) (l : list A) : result (list B) :=
  match l with
  | [] => ret []
  | a :: l' => do b <- f a; do bs <- mapM f l'; ret (b :: bs)
  end.

(** The assigned value loses its leading axes of size 1. *)
Fixpoint strip1 (s : list nat) : list nat :=
  match s with
  | 1%nat :: s' => strip1 s'
  | _ => s
  end.

(** Writes [v k] at the [k]-th position of [ps], in order. *)
Fixpoint put (ps : list (nat * nat)) (k : nat) (v : nat -> Q)
  (d : list nat -> Q) : list nat -> Q :=
  match ps with
  | [] => d
  | (r, c) :: ps' =>
      put ps' (S k) v (fun idx => if idx_eqb idx [r; c] then v k else d idx)
  end.

(** [m[rows, cols] = value] on a matrix [m], for two index sequences of
    one length [n]: the value, once its leading axes of size 1 are gone, is
    one number for all positions or [n] numbers, one per position. *)
Definition index_put2 (m : tensor) (rows cols : list Z) (value : tensor)
  : result tensor :=
  match shape m with
  | [h; w] =>
      do rs <- mapM (wrap h) rows;
      do cs <- mapM (wrap w) cols;
      let ps := combine rs cs in
      let lead := (length (shape value) - length (strip1 (shape value)))%nat in
      match strip1 (shape value) with
      | [] =>
          ret (mkTensor [h; w]
                 (put ps 0 (fun _ => data value (repeat 0%nat lead)) (data m)))
      | [k] =>
          if (k =? length ps)%nat
          then ret (mkTensor [h; w]
                      (put ps 0 (fun i => data value (repeat 0%nat lead ++ [i]))
                         (data m)))
          else raise RuntimeError
      | _ => raise RuntimeError
      end
  | _ => raise IndexError
  end.

(** *** Layers *)

(** [nn.Conv2d(in_channels, out_channels, kernel_size=1, bias=bias)] *)
Record Conv2d : Type := mkConv2d { weight : tensor; bias : option tensor }.

Definition Conv2d_init (w b : list nat -> Q) (in_channels out_channels : Z)
  (use_bias : bool) : result Conv2d :=
  do s <- sizes [out_channels; in_channels; 1; 1]%Z;
  ret (mkConv2d (mkTensor s w)
         (if use_bias then Some (mkTensor [Z.to_nat out_channels] b) else None)).

(** The layer applied to a batch: one product per input channel. *)
Definition conv2d (c : Conv2d) (x : tensor) : result tensor :=
  match shape x, shape (weight c) with
  | [b; cin; h; w], [cout; cin'; _; _] =>
      if (cin =? cin')%nat
      then ret (mkTensor [b; cout; h; w]
                  (fun idx =>
                     match idx with
                     | [n; o; i; j] =>
                         Qsum (map (fun k => data x [n; k; i; j]
                                             * data (weight c) [o; k; 0; 0]%nat)
                                 (seq 0 cin))
                         + match bias c with
                           | Some bt => data bt [o]
                           | None => 0
                           end
                     | _ => 0
                     end))
      else raise RuntimeError
  | _, _ => raise RuntimeError
  end.

End Torch.

Import Torch.

(** ** AdaptiveMask *)

Record AdaptiveMask : Type := mkAdaptiveMask {
  _max_size : Q;
  _ramp_size : Z;
  current_val : tensor;
  mask_template : tensor
}.

(** Defaults of [AdaptiveMask.__init__]. *)
Definition default_init_val : Q := 0.
Definition default_shape : list Z := [1%Z].

(** [AdaptiveMask.__init__] *)
Definition AdaptiveMask_init (max_size : Py.number) (ramp_size : Z)
  (init_val : Q) (shape : list Z) : result AdaptiveMask :=
  do z <- zeros shape;
  let current_val := pointwise (fun v => v + init_val) z in
  do mask_template <- linspace (1 - Py.value max_size) 0 max_size;
  ret (mkAdaptiveMask (Py.value max_size) ramp_size current_val mask_template).

(** The clamped ramp, lines 36 to 38 of [forward]. *)
Definition ramp (self : AdaptiveMask) : result tensor :=
  do one_d_mask <- add (mask_template self)
                     (pointwise (fun v => v * _max_size self) (current_val self));
  let one_d_mask :=
    pointwise (fun v => v / inject_Z (_ramp_size self) + 1) one_d_mask in
  ret (clamp 0 1 one_d_mask).

(** The index list one pass of the loop builds, lines 51 to 55. *)
Definition ring_indices (left right : Z) : list (Z * Z) :=
  let bottom := left in
  let top := right in
  (map (fun j => (left, j)) (Py.range bottom (top + 1))
   ++ map (fun j => (bottom, j)) (Py.range (left + 1) (right + 1))
   ++ map (fun j => (top, j)) (Py.range (left + 1) (right + 1))
   ++ map (fun j => (right, j)) (Py.range (bottom + 1) top))%Z.

(** The loop of [forward] over the given ring numbers, lines 50 to 60. *)
Fixpoint rings (one_d_mask : tensor) (ring_numbers : list nat) (mask : tensor)
  (left right : Z) : result tensor :=
  match ring_numbers with
  | [] => ret mask
  | i :: rest =>
      do rc <- Py.unzip2 (ring_indices left right);
      do v <- select0 i one_d_mask;
      do mask' <- index_put2 mask (fst rc) (snd rc) v;
      rings one_d_mask rest mask' (left + 1)%Z (right - 1)%Z
  end.

(** The weight grid [forward] builds for a last axis of size [n],
    lines 36 to 60. *)
Definition mask_grid (self : AdaptiveMask) (n : nat) : result tensor :=
  do one_d_mask <- ramp self;
  do one_d_mask <- slice_last (Z.of_nat n / 2) one_d_mask;
  let mask := full [n; n] 1 in
  let left := 0%Z in
  let right := (Z.of_nat n - 1)%Z in
  do l <- len one_d_mask;
  rings one_d_mask (seq 0 l) mask left right.

(** [AdaptiveMask.forward] *)
Definition AdaptiveMask_forward (self : AdaptiveMask) (x : tensor)
  : result tensor :=
  do n <- last_dim x;
  do mask <- mask_grid self n;
  mul x mask.

(** [AdaptiveMask.get_current_max_size] *)
Definition get_current_max_size (self : AdaptiveMask) (include_ramp : bool)
  : result Q :=
  do m <- max_all (current_val self);
  let current_size := Py.ceil (m * _max_size self) in
  let current_size :=
    if include_ramp then (current_size + _ramp_size self)%Z else current_size in
  ret (Py.max 0 (Py.min (_max_size self) (inject_Z current_size))).

(** [AdaptiveMask.get_current_avg_size]; [math.ceil] refuses the mean of
    an empty parameter, which is not a number. *)
Definition get_current_avg_size (self : AdaptiveMask) (include_ramp : bool)
  : result Q :=
  match mean_all (current_val self) with
  | None => raise ValueError
  | Some m =>
      let current_size := Py.ceil (m * _max_size self) in
      let current_size :=
        if include_ramp then (current_size + _ramp_size self)%Z
        else current_size in
      ret (Py.max 0 (Py.min (_max_size self) (inject_Z current_size)))
  end.

(** [AdaptiveMask.clamp_param] *)
Definition clamp_param (self : AdaptiveMask) : AdaptiveMask :=
  mkAdaptiveMask (_max_size self) (_ramp_size self)
    (clamp 0 1 (current_val self)) (mask_template self).

(** ** AttentionConv *)

Record AttentionConv : Type := mkAttentionConv {
  out_channels : Z;
  kernel_size : Z;
  adaptive_span : bool;
  stride : Z;
  padding : Z;
  groups : Z;
  rel_h : tensor;
  rel_w : tensor;
  adaptive_mask : AdaptiveMask;
  key_conv : Conv2d;
  query_conv : Conv2d;
  value_conv : Conv2d
}.

(** Defaults of [AttentionConv.__init__]. *)
Definition default_stride : Z := 1.
Definition default_padding : Z := 0.
Definition default_groups : Z := 1.
Definition default_bias : bool := false.
Definition default_R : Z := 3.
Definition default_z_init : Q := 4.
Definition default_image_size : Z := 32.
Definition default_adaptive_span : bool := false.

(** The random fills of a construction, numbered in the order the
    constructor asks for them. *)
Definition draws : Type := nat -> list nat -> Q.

(** [AttentionConv.reset_parameters] *)
Definition reset_parameters (rnd : draws) (self : AttentionConv) : AttentionConv :=
  let refill (k : nat) (c : Conv2d) :=
    mkConv2d (mkTensor (shape (weight c)) (rnd k)) (bias c) in
  mkAttentionConv (out_channels self) (kernel_size self) (adaptive_span self)
    (stride self) (padding self) (groups self)
    (mkTensor (shape (rel_h self)) (rnd 11%nat))
    (mkTensor (shape (rel_w self)) (rnd 12%nat))
    (adaptive_mask self)
    (refill 8%nat (key_conv self))
    (refill 10%nat (query_conv self))
    (refill 9%nat (value_conv self)).

(** The assertion and the two relative biases, lines 110 to 116 of
    [AttentionConv.__init__]. *)
Definition relative_biases (rnd : draws) (out_channels kernel_size groups : Z)
  : result (tensor * tensor) :=
  do r <- Py.mod_ out_channels groups;
  if negb (r =? 0)%Z then raise AssertionError
  else
    do rel_h <- randn (rnd 0%nat) [out_channels / 2; 1; 1; kernel_size; 1]%Z;
    do rel_w <- randn (rnd 1%nat) [out_channels / 2; 1; 1; 1; kernel_size]%Z;
    ret (rel_h, rel_w).

(** [AttentionConv.__init__]; [image_size/2] is a float. *)
Definition AttentionConv_init (rnd : draws)
  (in_channels out_channels kernel_size stride padding groups : Z)
  (bias : bool) (R : Z) (z_init : Q) (image_size : Z) (adaptive_span : bool)
  : result AttentionConv :=
  let self_kernel_size :=
    if adaptive_span then (image_size + 1)%Z else kernel_size in
  do rel <- relative_biases rnd out_channels kernel_size groups;
  let '(rel_h, rel_w) := rel in
  let max_mask_size := Py.Float (inject_Z image_size / 2) in
  do adaptive_mask <- AdaptiveMask_init max_mask_size R z_init [groups; 1%Z];
  do key_conv <- Conv2d_init (rnd 2%nat) (rnd 3%nat) in_channels out_channels bias;
  do query_conv <- Conv2d_init (rnd 4%nat) (rnd 5%nat) in_channels out_channels bias;
  do value_conv <- Conv2d_init (rnd 6%nat) (rnd 7%nat) in_channels out_channels bias;
  ret (reset_parameters rnd
         (mkAttentionConv out_channels self_kernel_size adaptive_span stride
            padding groups rel_h rel_w adaptive_mask
            key_conv query_conv value_conv)).

(** The window of one call, lines 151 to 161 of [forward]: the kernel size
    and the padding. *)
Definition window (self : AttentionConv) : result (Z * Z) :=
  if adaptive_span self then
    do size <- get_current_max_size (adaptive_mask self) true;
    let kernel_size := Py.ceil (2 * (size + 1)) in
    let kernel_size :=
      if (kernel_size mod 2 =? 0)%Z then (kernel_size + 1)%Z else kernel_size in
    let padding := Py.int (inject_Z (kernel_size - 1) / 2) in
    ret (kernel_size, padding)
  else
    ret (kernel_size self, padding self).

(** The relative biases of one call, lines 175 to 187; [k] is the
    kernel size of the call, [kernel_size self] the stored one. *)
Definition biases (self : AttentionConv) (k : Z) : result (tensor * tensor) :=
  if adaptive_span self then
    let start_ind := (kernel_size self / 2 - k / 2)%Z in
    let end_ind := (kernel_size self / 2 + k / 2)%Z in
    do h <- slice 3 start_ind (end_ind + 1)%Z (rel_h self);
    do w <- slice 4 start_ind (end_ind + 1)%Z (rel_w self);
    ret (h, w)
  else
    ret (rel_h self, rel_w self).

Section Forward.

(** The exponential of the runtime's softmax. *)
Variable exp : Q -> Q.

(** [AttentionConv.forward] *)
Definition AttentionConv_forward (self : AttentionConv) (x : tensor)
  : result tensor :=
  match shape x with
  | [batch; channels; height; width] =>
      let batch := Z.of_nat batch in
      let height := Z.of_nat height in
      let width := Z.of_nat width in
      do kp <- window self;
      let '(kernel_size, padding) := kp in
      do padded_x <- pad2 padding x;
      do q_out <- conv2d (query_conv self) x;
      do k_out <- conv2d (key_conv self) padded_x;
      do v_out <- conv2d (value_conv self) padded_x;
      do k_out <- unfold 2 kernel_size (stride self) k_out;
      do k_out <- unfold 3 kernel_size (stride self) k_out;
      do v_out <- unfold 2 kernel_size (stride self) v_out;
      do v_out <- unfold 3 kernel_size (stride self) v_out;
      do rel <- biases self kernel_size;
      let '(rel_h, rel_w) := rel in
      do chunks <- split (out_channels self / 2)%Z 1 k_out;
      do hw <- unpack2 chunks;
      let '(k_out_h, k_out_w) := hw in
      do kh <- add k_out_h rel_h;
      do kw <- add k_out_w rel_w;
      do k_out <- cat2 1 kh kw;
      do per_group <- Py.floordiv (out_channels self) (groups self);
      do k_out <- view_infer_last
                    [batch; groups self; per_group; height; width] k_out;
      do v_out <- view_infer_last
                    [batch; groups self; per_group; height; width] v_out;
      do q_out <- view [batch; groups self; per_group; height; width; 1%Z] q_out;
      do qk <- mul q_out k_out;
      do out <- sum_dim 2 qk;
      do out2 <- softmax_last exp out;
      do out2' <- unsqueeze 2 out2;
      do weighted <- mul out2' v_out;
      do summed <- sum_dim (length (shape weighted) - 1) weighted;
      do out3 <- squeeze 1 summed;
      AdaptiveMask_forward (adaptive_mask self) out3
  | _ => raise ValueError
  end.

End Forward.

(** ** Definitions used by the statements *)

(** What an optimizer step does to a mask: a new span parameter. *)
Definition with_span (self : AdaptiveMask) (v : tensor) : AdaptiveMask :=
  mkAdaptiveMask (_max_size self) (_ramp_size self) v (mask_template self).

(** The kernel size in the words of the design: the ceiling of twice the
    size plus one, made odd by adding one when it is even. *)
Definition spec_kernel_size (size : Q) : Z :=
  let k := Qceiling (2 * (size + 1)) in
  if Z.even k then (k + 1)%Z else k.

(** The four edges of ring [i] of an [n] by [n] grid in the words of the
    design: the cells of the square [[i, n-1-i] x [i, n-1-i]] on its left
    column, bottom row, top row or right column. *)
Definition on_ring (n i : nat) (r c : Z) : bool :=
  let lo := Z.of_nat i in
  let hi := (Z.of_nat n - 1 - Z.of_nat i)%Z in
  ((lo <=? r) && (r <=? hi) && (lo <=? c) && (c <=? hi)
   && ((r =? lo) || (r =? hi) || (c =? lo) || (c =? hi)))%Z.

(** The symmetries of an [n] by [n] grid. *)
Definition rot90 (n : nat) (m : tensor) : tensor :=
  mkTensor (shape m)
    (fun idx => match idx with
                | [r; c] => data m [c; (n - 1 - r)%nat]
                | _ => data m idx
                end).

Definition flip_rows (n : nat) (m : tensor) : tensor :=
  mkTensor (shape m)
    (fun idx => match idx with
                | [r; c] => data m [(n - 1 - r)%nat; c]
                | _ => data m idx
                end).

Definition flip_cols (n : nat) (m : tensor) : tensor :=
  mkTensor (shape m)
    (fun idx => match idx with
                | [r; c] => data m [r; (n - 1 - c)%nat]
                | _ => data m idx
                end).

(** Equal shapes and equal entries. *)
Definition grid_eqb (a b : tensor) : bool :=
  idx_eqb (shape a) (shape b)
  && forallb (fun idx => Qeq_bool (data a idx) (data b idx)) (indices (shape a)).

(** Every entry lies in [[0, 1]]. *)
Definition unit_range (t : tensor) : Prop :=
  forall idx, 0 <= data t idx <= 1.

(** An index within a shape. *)
Definition valid_index (s idx : list nat) : Prop := Forall2 lt idx s.

(** The cells one pass of the loop assigns, for ring [i] of an [n] by [n]
    grid: row [i] from column [i] to column [n-1-i], and row [n-1-i] from
    column [i+1] to column [n-1-i]. *)
Definition in_pass (n i r c : nat) : bool :=
  ((r =? i) && (i <=? c) && (c + i + 1 <=? n)
   || (r + i + 1 =? n) && (i <? c) && (c + i + 1 <=? n))%nat.

(** The shape of a returned tensor. *)
Definition shape_of (r : result tensor) : result (list nat) :=
  do t <- r; ret (shape t).

(** A tensor whose every entry is zero. *)
Definition all_zero (t : tensor) : Prop := forall idx, data t idx == 0.

(** A generator whose every draw is zero. *)
Definition zero_draws : draws := fun _ _ => 0.

(** A layer state given by its attributes: the relative biases as long as
    the stored kernel size, three projections without bias, every entry
    of the biases and of the weights [w]. *)
Definition layer (c_in c_out k s p g : Z) (adaptive : bool)
  (am : AdaptiveMask) (w : Q) : AttentionConv :=
  let conv := mkConv2d (full [Z.to_nat c_out; Z.to_nat c_in; 1; 1]%nat w) None in
  mkAttentionConv c_out k adaptive s p g
    (full [Z.to_nat (c_out / 2); 1; 1; Z.to_nat k; 1]%nat w)
    (full [Z.to_nat (c_out / 2); 1; 1; 1; Z.to_nat k]%nat w)
    am conv conv conv.

(** * Properties *)

(** ** Inversion of the constructors *)

(** Splits a conjunction into its parts, and nothing else. *)
Ltac conjuncts := repeat match goal with |- _ /\ _ => split end.

(** Closes a closed goal by evaluation. *)
Ltac evaluate := vm_compute; first [reflexivity | discriminate].

Lemma sizes_inv (dims : list Z) (s : list nat) :
  sizes dims = inr s ->
  s = map Z.to_nat dims /\ Forall (fun d => 0 <= d)%Z dims.
Proof.
  unfold sizes. destruct (existsb _ dims) eqn:E; [discriminate|].
  intros H; injection H as <-. split; [reflexivity|].
  apply Forall_forall. intros d Hd.
  destruct (Z.ltb_spec d 0); [|assumption].
  exfalso. assert (existsb (fun d => d <? 0)%Z dims = true).
  { apply existsb_exists. exists d. split; [assumption|]. apply Z.ltb_lt; assumption. }
  congruence.
Qed.

Lemma steps_of_value (m : Py.number) (n : nat) :
  steps_of m = inr n -> Py.value m == inject_Z (Z.of_nat n).
Proof.
  unfold steps_of. destruct m as [z|q]; [|discriminate].
  destruct (Z.ltb_spec z 0) as [|Hz]; [discriminate|].
  intros H; injection H as <-. cbn [Py.value].
  rewrite Z2Nat.id by exact Hz. reflexivity.
Qed.

Lemma steps_of_ge_2 (m : Py.number) (n : nat) :
  steps_of m = inr n -> 2 <= Py.value m -> (2 <= n)%nat.
Proof.
  intros H Hq. apply steps_of_value in H. rewrite H in Hq.
  change 2 with (inject_Z 2) in Hq. rewrite <- Zle_Qle in Hq. lia.
Qed.

Lemma AdaptiveMask_init_inv (max_size : Py.number) (ramp_size : Z)
  (init_val : Q) (dims : list Z) (am : AdaptiveMask) :
  AdaptiveMask_init max_size ramp_size init_val dims = inr am ->
  exists n template,
    steps_of max_size = inr n
    /\ Forall (fun d => 0 <= d)%Z dims
    /\ am = mkAdaptiveMask (Py.value max_size) ramp_size
              (mkTensor (map Z.to_nat dims) (fun _ => 0 + init_val))
              (mkTensor [n] template).
Proof.
  unfold AdaptiveMask_init, zeros, linspace. intros H.
  destruct (sizes dims) as [|s] eqn:Es; [discriminate H|].
  apply sizes_inv in Es as [-> Hd]. simpl in H.
  destruct (steps_of max_size) as [|n] eqn:En; [discriminate H|].
  simpl in H. injection H as <-.
  eexists; eexists. split; [reflexivity|]. split; [assumption|]. reflexivity.
Qed.

Lemma sizes_error (dims : list Z) (e : error) :
  sizes dims = inl e -> e = RuntimeError.
Proof.
  unfold sizes. destruct (existsb _ dims); [|discriminate].
  intros H; injection H as <-. reflexivity.
Qed.

(** The mask constructor refuses a float [max_size]: with a size list it
    can allocate, the error is the one of [linspace]. *)
Lemma AdaptiveMask_init_float (q : Q) (ramp_size : Z) (init_val : Q)
  (dims : list Z) :
  AdaptiveMask_init (Py.Float q) ramp_size init_val dims
  = match sizes dims with
    | inl e => inl e
    | inr _ => inl TypeError
    end.
Proof.
  unfold AdaptiveMask_init, zeros, linspace, steps_of.
  destruct (sizes dims); reflexivity.
Qed.

Lemma relative_biases_inv (rnd : draws) (c_out k g : Z) (h w : tensor) :
  relative_biases rnd c_out k g = inr (h, w) ->
  (g <> 0 /\ c_out mod g = 0)%Z
  /\ Forall (fun d => 0 <= d)%Z [c_out / 2; k]%Z
  /\ shape h = map Z.to_nat [c_out / 2; 1; 1; k; 1]%Z
  /\ shape w = map Z.to_nat [c_out / 2; 1; 1; 1; k]%Z.
Proof.
  unfold relative_biases, Py.mod_, randn. intros H.
  destruct (g =? 0)%Z eqn:Eg; [discriminate H|]. simpl in H.
  destruct (c_out mod g =? 0)%Z eqn:Em; [|discriminate H].
  simpl in H.
  destruct (sizes [_; _; _; k; _]) as [|sh] eqn:Esh; [discriminate H|].
  apply sizes_inv in Esh as [-> Hd]. simpl in H.
  destruct (sizes [_; _; _; _; k]) as [|sw] eqn:Esw; [discriminate H|].
  apply sizes_inv in Esw as [-> _]. simpl in H.
  injection H as <- <-.
  apply Z.eqb_neq in Eg. apply Z.eqb_eq in Em.
  inversion Hd as [|? ? H0 Hd1]; subst.
  inversion Hd1 as [|? ? _ Hd2]; subst.
  inversion Hd2 as [|? ? _ Hd3]; subst.
  inversion Hd3 as [|? ? Hk _]; subst.
  repeat split; auto.
Qed.

(** No call of the layer's constructor returns: whatever passes the
    assertion and the allocation of the biases stops in the mask's
    constructor, which is handed the float [image_size/2]. *)
Lemma AttentionConv_init_no_layer (rnd : draws) (c_in c_out k s p g : Z)
  (bias : bool) (R : Z) (z_init : Q) (image_size : Z) (adaptive : bool)
  (l : AttentionConv) :
  AttentionConv_init rnd c_in c_out k s p g bias R z_init image_size adaptive
  <> inr l.
Proof.
  unfold AttentionConv_init. intros H.
  destruct (relative_biases rnd c_out k g) as [|[h w]]; [discriminate H|].
  cbn [bind] in H. rewrite AdaptiveMask_init_float in H.
  destruct (sizes [g; 1%Z]); discriminate H.
Qed.

(** With a group count and sizes the runtime accepts, the error is the
    [TypeError] of [linspace]. *)
Lemma AttentionConv_init_TypeError (rnd : draws) (c_in c_out k s p g : Z)
  (bias : bool) (R : Z) (z_init : Q) (image_size : Z) (adaptive : bool) :
  (0 < g)%Z -> (c_out mod g = 0)%Z -> (0 <= c_out)%Z -> (0 <= k)%Z ->
  AttentionConv_init rnd c_in c_out k s p g bias R z_init image_size adaptive
  = inl TypeError.
Proof.
  intros Hg Hm Hc Hk.
  assert (Hh : (0 <= c_out / 2)%Z) by (apply Z.div_pos; lia).
  unfold AttentionConv_init, relative_biases, Py.mod_, randn.
  destruct (Z.eqb_spec g 0) as [|_]; [lia|]. cbn [bind ret].
  rewrite Hm. cbn [Z.eqb negb].
  assert (E1 : sizes [c_out / 2; 1; 1; k; 1]%Z
               = inr (map Z.to_nat [c_out / 2; 1; 1; k; 1]%Z)).
  { unfold sizes. cbn [existsb].
    destruct (Z.ltb_spec (c_out / 2) 0); [lia|].
    destruct (Z.ltb_spec k 0); [lia|]. reflexivity. }
  assert (E2 : sizes [c_out / 2; 1; 1; 1; k]%Z
               = inr (map Z.to_nat [c_out / 2; 1; 1; 1; k]%Z)).
  { unfold sizes. cbn [existsb].
    destruct (Z.ltb_spec (c_out / 2) 0); [lia|].
    destruct (Z.ltb_spec k 0); [lia|]. reflexivity. }
  rewrite E1. cbn [bind ret]. rewrite E2. cbn [bind ret].
  rewrite AdaptiveMask_init_float.
  unfold sizes. cbn [existsb].
  destruct (Z.ltb_spec g 0); [lia|]. reflexivity.
Qed.

(** ** The size query *)

Lemma py_min_le_l (a b : Q) : Py.min a b <= a.
Proof. unfold Py.min; destruct (Qlt_le_dec b a); lra. Qed.

Lemma py_max_ge_l (a b : Q) : a <= Py.max a b.
Proof. unfold Py.max; destruct (Qlt_le_dec a b); lra. Qed.

Lemma py_max_min_bounds (m c : Q) :
  0 <= m -> 0 <= Py.max 0 (Py.min m c) <= m.
Proof.
  intros Hm; split; [apply py_max_ge_l|].
  unfold Py.max, Py.min.
  destruct (Qlt_le_dec c m); destruct (Qlt_le_dec 0 _); lra.
Qed.

Lemma py_max_min_mono (m c d : Q) :
  c <= d -> Py.max 0 (Py.min m c) <= Py.max 0 (Py.min m d).
Proof.
  intros Hcd. unfold Py.max, Py.min.
  destruct (Qlt_le_dec c m); destruct (Qlt_le_dec d m);
    repeat match goal with |- context [Qlt_le_dec ?x ?y] => destruct (Qlt_le_dec x y) end;
    lra.
Qed.

Lemma fold_Qmax_mono (l1 l2 : list Q) :
  Forall2 Qle l1 l2 ->
  forall a b, a <= b -> fold_left Qmax l1 a <= fold_left Qmax l2 b.
Proof.
  induction 1 as [|x y l1 l2 Hxy _ IH]; intros a b Hab; simpl; [exact Hab|].
  apply IH. apply Q.max_le_compat; assumption.
Qed.

Lemma max_all_mono (v1 v2 : tensor) (m1 m2 : Q) :
  shape v1 = shape v2 ->
  (forall idx, In idx (indices (shape v1)) -> data v1 idx <= data v2 idx) ->
  max_all v1 = inr m1 -> max_all v2 = inr m2 -> m1 <= m2.
Proof.
  unfold max_all. intros Hs Hle. rewrite <- Hs.
  induction (indices (shape v1)) as [|i l _]; simpl; [discriminate|].
  intros H1 H2. injection H1 as <-. injection H2 as <-.
  apply fold_Qmax_mono.
  - clear - Hle. induction l as [|j l IH]; simpl; constructor.
    + apply Hle. simpl; auto.
    + apply IH. intros idx [->|Hin]; apply Hle; simpl; auto.
  - apply Hle. simpl; auto.
Qed.

Lemma max_all_returns (v : tensor) :
  indices (shape v) <> [] -> exists m, max_all v = inr m.
Proof.
  unfold max_all. destruct (indices (shape v)); [congruence|].
  simpl. eauto.
Qed.

(** C6.  For a constructed mask and two values of its span parameter, of
    one non-empty shape, the first at most the second at every position:
    [get_current_max_size(include_ramp=False)] returns for both, each
    result lies in [[0, max_size]], and the first result is at most the
    second. *)
Theorem get_current_max_size_monotone_bounded
  (max_size : Py.number) (ramp_size : Z) (init_val : Q) (dims : list Z)
  (self : AdaptiveMask) (v1 v2 : tensor) :
  AdaptiveMask_init max_size ramp_size init_val dims = inr self ->
  shape v1 = shape v2 ->
  indices (shape v1) <> [] ->
  (forall idx, In idx (indices (shape v1)) -> data v1 idx <= data v2 idx) ->
  exists s1 s2,
    get_current_max_size (with_span self v1) false = inr s1
    /\ get_current_max_size (with_span self v2) false = inr s2
    /\ 0 <= s1 <= Py.value max_size
    /\ 0 <= s2 <= Py.value max_size
    /\ s1 <= s2.
Proof.
  intros Hinit Hs Hne Hle.
  apply AdaptiveMask_init_inv in Hinit as (n & template & Hsteps & _ & ->).
  assert (Hm : 0 <= Py.value max_size).
  { rewrite (steps_of_value _ _ Hsteps).
    change 0 with (inject_Z 0). rewrite <- Zle_Qle. lia. }
  destruct (max_all_returns v1 Hne) as [m1 E1].
  assert (Hne2 : indices (shape v2) <> []) by (rewrite <- Hs; exact Hne).
  destruct (max_all_returns v2 Hne2) as [m2 E2].
  pose proof (max_all_mono v1 v2 m1 m2 Hs Hle E1 E2) as H12.
  unfold get_current_max_size; simpl. rewrite E1, E2; simpl.
  eexists; eexists. split; [reflexivity|]. split; [reflexivity|].
  split; [apply py_max_min_bounds; exact Hm|].
  split; [apply py_max_min_bounds; exact Hm|].
  apply py_max_min_mono. rewrite <- Zle_Qle. unfold Py.ceil.
  apply Qceiling_resp_le. apply Qmult_le_compat_r; assumption.
Qed.

Lemma get_current_max_size_monotone_bounded_witness :
  exists self s1 s2,
    AdaptiveMask_init (Py.Int 16) 3 default_init_val [2; 1]%Z = inr self
    /\ get_current_max_size
         (with_span self
            (mkTensor [2; 1]%nat
               (fun idx => match idx with
                           | [O; _] => 1 # 4
                           | _ => 1 # 2
                           end))) false = inr s1
    /\ get_current_max_size (with_span self (full [2; 1]%nat (3 # 4))) false
       = inr s2
    /\ 0 <= s1 <= 16
    /\ 0 <= s2 <= 16
    /\ s1 <= s2.
Proof.
  eexists.
  destruct (get_current_max_size_monotone_bounded (Py.Int 16) 3
              default_init_val
              [2; 1]%Z _
              (mkTensor [2; 1]%nat
                 (fun idx => match idx with
                             | [O; _] => 1 # 4
                             | _ => 1 # 2
                             end))
              (full [2; 1]%nat (3 # 4)) eq_refl eq_refl)
    as (s1 & s2 & H).
  - discriminate.
  - intros idx [<-|[<-|[]]]; discriminate.
  - exists s1, s2. split; [reflexivity|exact H].
Defined.

(** ** The window of a call *)

Lemma even_mod2 (k : Z) : Z.even k = (k mod 2 =? 0)%Z.
Proof.
  rewrite Zeven_mod. reflexivity.
Qed.

Lemma spec_kernel_size_odd (size : Q) : Z.odd (spec_kernel_size size) = true.
Proof.
  unfold spec_kernel_size.
  destruct (Z.even (Qceiling (2 * (size + 1)))) eqn:E.
  - rewrite Z.add_1_r, Z.odd_succ. exact E.
  - rewrite <- Z.negb_even, E. reflexivity.
Qed.

Lemma int_half_odd (k : Z) :
  Z.odd k = true ->
  inject_Z (Py.int (inject_Z (k - 1) / 2)) == (inject_Z k - 1) / 2.
Proof.
  intros Hk. apply Z.odd_spec in Hk as [m Hm].
  assert (Hq : Py.int (inject_Z (k - 1) / 2) = m).
  { unfold Py.int. cbn [Qnum Qden inject_Z Qdiv Qmult Qinv Pos.mul].
    replace ((k - 1) * 1)%Z with (m * 2)%Z by lia.
    apply Z.quot_mul. lia. }
  rewrite Hq.
  unfold Qeq, Qdiv, Qminus. cbn [Qnum Qden inject_Z Qmult Qplus Qopp Qinv Pos.mul].
  lia.
Qed.

(** C4.  With [adaptive_span] set, whenever the mask answers the size query
    with [size], the window of the call has the kernel size
    [ceil(2 * (size + 1))] made odd, and a padding that is exactly
    [(kernel_size - 1) / 2]; without it the window is the stored pair, which
    for a constructed layer is the pair given to the constructor. *)
Theorem window_effective (self : AttentionConv) :
  (adaptive_span self = true ->
   forall size, get_current_max_size (adaptive_mask self) true = inr size ->
   exists pad,
     window self = inr (spec_kernel_size size, pad)
     /\ inject_Z pad == (inject_Z (spec_kernel_size size) - 1) / 2)
  /\ (adaptive_span self = false ->
      window self = inr (kernel_size self, padding self))
  /\ (forall rnd c_in c_out k s p g bias R z_init image_size,
        AttentionConv_init rnd c_in c_out k s p g bias R z_init image_size false
        = inr self ->
        window self = inr (k, p)).
Proof.
  split; [|split].
  - intros Ha size Hs. unfold window. rewrite Ha, Hs. simpl.
    unfold Py.ceil. rewrite <- even_mod2.
    fold (spec_kernel_size size).
    eexists. split; [reflexivity|].
    apply int_half_odd, spec_kernel_size_odd.
  - intros Ha. unfold window. rewrite Ha. reflexivity.
  - intros rnd c_in c_out k s p g bias R z_init image_size H.
    exfalso. exact (AttentionConv_init_no_layer _ _ _ _ _ _ _ _ _ _ _ _ _ H).
Qed.

Lemma fold_Qmax_all (c : Q) (l : list Q) (a : Q) :
  a == c -> (forall x, In x l -> x == c) -> fold_left Qmax l a == c.
Proof.
  revert a. induction l as [|x l IH]; intros a Ha H; simpl; [exact Ha|].
  apply IH.
  - rewrite Ha, (H x (or_introl eq_refl)). apply Q.max_id.
  - intros y Hy. apply H. right. exact Hy.
Qed.

Lemma max_all_of_one_value (v : tensor) (c : Q) :
  indices (shape v) <> [] ->
  (forall idx, data v idx == c) ->
  exists m, max_all v = inr m /\ m == c.
Proof.
  unfold max_all. intros Hne Hc.
  destruct (indices (shape v)) as [|i l]; [congruence|]. cbn [map].
  eexists. split; [reflexivity|].
  apply fold_Qmax_all; [apply Hc|].
  intros x Hx. apply in_map_iff in Hx as (idx & <- & _). apply Hc.
Qed.

(** C5 (as the code has it).  A layer with [adaptive_span] set whose mask
    has [max_size = 16] (half of [image_size = 32]), ramp size 4 and span 1
    in every entry has the window [(35, 17)]: the size query clamps
    [16 + 4] to the maximum 16, and [ceil(2 * (16 + 1)) = 34] is made
    odd. *)
Theorem window_full_span (self : AttentionConv) :
  adaptive_span self = true ->
  _max_size (adaptive_mask self) == 32 / 2 ->
  _ramp_size (adaptive_mask self) = 4%Z ->
  indices (shape (current_val (adaptive_mask self))) <> [] ->
  (forall idx, data (current_val (adaptive_mask self)) idx == 1) ->
  (exists size,
     get_current_max_size (adaptive_mask self) true = inr size
     /\ size == 16)
  /\ window self = inr (35, 17)%Z.
Proof.
  intros Ha Hmax Hramp Hne Hone.
  destruct (max_all_of_one_value _ 1 Hne Hone) as (m & Em & Hm).
  assert (Hs : exists size,
             get_current_max_size (adaptive_mask self) true = inr size
             /\ size == 16).
  { unfold get_current_max_size. rewrite Em, Hramp. cbn [bind ret].
    eexists. split; [reflexivity|].
    assert (Hc : Py.ceil (m * _max_size (adaptive_mask self)) = 16%Z).
    { unfold Py.ceil. rewrite <- (Qceiling_Z 16). apply Qceiling_comp.
      rewrite Hm, Hmax. reflexivity. }
    rewrite Hc. change (inject_Z (16 + 4)) with 20.
    unfold Py.max, Py.min.
    destruct (Qlt_le_dec 20 _) as [H20|H20].
    { rewrite Hmax in H20. exfalso. revert H20. apply Qle_not_lt.
      discriminate. }
    destruct (Qlt_le_dec 0 _) as [_|H0]; [rewrite Hmax; reflexivity|].
    rewrite Hmax in H0. exfalso. revert H0. apply Qlt_not_le. reflexivity. }
  split; [exact Hs|].
  destruct Hs as (size & Hs & Hsz).
  unfold window. rewrite Ha, Hs. cbn [bind ret].
  assert (Hc : Py.ceil (2 * (size + 1)) = 34%Z).
  { unfold Py.ceil. rewrite <- (Qceiling_Z 34). apply Qceiling_comp.
    rewrite Hsz. reflexivity. }
  rewrite Hc. reflexivity.
Qed.

Lemma window_full_span_witness :
  exists am,
    AdaptiveMask_init (Py.Int 16) 4 1 [1; 1]%Z = inr am
    /\ window (layer 3 16 33 1 0 1 true am 0) = inr (35, 17)%Z.
Proof.
  eexists. split; [reflexivity|].
  match goal with
  | |- window ?l = _ => refine (proj2 (window_full_span l eq_refl _ eq_refl _ _))
  end.
  - reflexivity.
  - discriminate.
  - intros idx. reflexivity.
Defined.

(** C5, the claim as stated fails: for the mask of the scenario the size
    query answers 16, not 20, so that the kernel size of the call is 35,
    and no padding makes the window [(43, _)]. *)
Lemma window_full_span_is_not_43 :
  exists am,
    AdaptiveMask_init (Py.Int 16) 4 1 [1; 1]%Z = inr am
    /\ get_current_max_size am true = inr 16
    /\ window (layer 3 16 33 1 0 1 true am 0) = inr (35, 17)%Z
    /\ (forall pad, window (layer 3 16 33 1 0 1 true am 0) <> inr (43%Z, pad)).
Proof.
  eexists. split; [reflexivity|].
  split; [reflexivity|].
  split; [reflexivity|].
  intros pad H. vm_compute in H. discriminate H.
Qed.

(** ** Construction *)

(** C10, the code at [AttentionConv(3, 16, kernel_size=3, padding=1)] with
    every other argument at its default: the construction raises, so that
    no layer, and no span parameter of a layer, exists.  The mask's
    constructor is handed the float [image_size/2 = 16.0] and refuses it
    as a step count; handed the [int] 16 with the same other arguments, it
    stores [z_init = 4] in the one entry of the span parameter. *)
Theorem span_parameter_initial (rnd : draws) :
  AttentionConv_init rnd 3 16 3 default_stride 1 default_groups
    default_bias default_R default_z_init default_image_size
    default_adaptive_span = inl TypeError
  /\ AdaptiveMask_init (Py.Float (inject_Z default_image_size / 2)) default_R
       default_z_init [default_groups; 1%Z] = inl TypeError
  /\ exists am,
       AdaptiveMask_init (Py.Int 16) default_R default_z_init
         [default_groups; 1%Z] = inr am
       /\ shape (current_val am) = [1; 1]%nat
       /\ data (current_val am) [0; 0]%nat == 4.
Proof.
  split; [|split].
  - apply AttentionConv_init_TypeError; [reflexivity|reflexivity|lia|lia].
  - reflexivity.
  - eexists. split; [reflexivity|]. split; reflexivity.
Qed.

(** The bias axis of both relative biases has the length of the
    constructor's [kernel_size] argument; neither [image_size] nor
    [adaptive_span] enters the allocation. *)
Lemma bias_extent (rnd : draws) (c_out k g : Z) (h w : tensor) :
  relative_biases rnd c_out k g = inr (h, w) ->
  nth 3 (shape h) 0%nat = Z.to_nat k
  /\ nth 4 (shape w) 0%nat = Z.to_nat k.
Proof.
  intros H. apply relative_biases_inv in H as (_ & _ & Hh & Hw).
  rewrite Hh, Hw. split; reflexivity.
Qed.

(** C1, the code at [AttentionConv(3, 16, kernel_size=3, padding=1,
    adaptive_span=True)] with [image_size = 32]: lines 115 and 116
    allocate [rel_h] and [rel_w] with a bias axis of length 3, the
    [kernel_size] argument, not [image_size + 1 = 33]; the construction
    then raises in the mask's constructor, and no layer is returned. *)
Theorem adaptive_bias_extent_is_argument (rnd : draws) :
  (exists h w,
     relative_biases rnd 16 3 default_groups = inr (h, w)
     /\ shape h = [8; 1; 1; 3; 1]%nat
     /\ shape w = [8; 1; 1; 1; 3]%nat)
  /\ AttentionConv_init rnd 3 16 3 default_stride 1 default_groups
       default_bias default_R default_z_init 32 true = inl TypeError.
Proof.
  split.
  - eexists. eexists. split; [reflexivity|]. split; reflexivity.
  - apply AttentionConv_init_TypeError; [reflexivity|reflexivity|lia|lia].
Qed.

Lemma AdaptiveMask_init_error (max_size : Py.number) (ramp_size : Z)
  (init_val : Q) (dims : list Z) (e : error) :
  AdaptiveMask_init max_size ramp_size init_val dims = inl e ->
  e = RuntimeError \/ e = TypeError.
Proof.
  unfold AdaptiveMask_init, zeros, linspace, steps_of.
  destruct (sizes dims) as [e'|sz] eqn:Es; simpl.
  - intros H; injection H as <-. left. exact (sizes_error _ _ Es).
  - destruct max_size as [z|q]; simpl.
    + destruct (z <? 0)%Z; simpl; [|discriminate].
      intros H; injection H as <-. left. reflexivity.
    + intros H; injection H as <-. right. reflexivity.
Qed.

(** C7 (as the code has it).  For a non-zero [groups], construction stops
    with the assertion error exactly when [out_channels] is not a multiple
    of [groups]; no parity check exists: when [out_channels] is a multiple
    of [groups], odd or even, the assertion passes and the two relative
    biases are allocated with [out_channels // 2] channels. *)
Theorem construction_assertion (rnd : draws) (c_in c_out k s p g : Z)
  (bias : bool) (R : Z) (z_init : Q) (image_size : Z) (adaptive : bool) :
  (g <> 0)%Z ->
  (AttentionConv_init rnd c_in c_out k s p g bias R z_init image_size adaptive
   = inl AssertionError
   <-> (c_out mod g <> 0)%Z)
  /\ ((c_out mod g = 0)%Z -> (0 <= c_out)%Z -> (0 <= k)%Z ->
      exists h w,
        relative_biases rnd c_out k g = inr (h, w)
        /\ shape h = map Z.to_nat [c_out / 2; 1; 1; k; 1]%Z
        /\ shape w = map Z.to_nat [c_out / 2; 1; 1; 1; k]%Z).
Proof.
  intros Hg. split.
  - unfold AttentionConv_init, relative_biases, Py.mod_, randn, Conv2d_init.
    apply Z.eqb_neq in Hg. rewrite Hg. simpl.
    destruct (Z.eqb_spec (c_out mod g) 0) as [E|E]; simpl.
    + split; [|intros Hn; contradiction].
      intros H. exfalso.
      destruct (sizes [_; _; _; k; _]) as [e|sh] eqn:Esh; simpl in H.
      { apply sizes_error in Esh. congruence. }
      destruct (sizes [_; _; _; _; k]) as [e|sw] eqn:Esw; simpl in H.
      { apply sizes_error in Esw. congruence. }
      destruct (AdaptiveMask_init _ R z_init _) as [e|am] eqn:Eam; simpl in H.
      { apply AdaptiveMask_init_error in Eam as [?|?]; congruence. }
      destruct (sizes [c_out; c_in; _; _]) as [e|sc] eqn:Esc; simpl in H.
      { apply sizes_error in Esc. congruence. }
      discriminate H.
    + split; [intros _; exact E|reflexivity].
  - intros Hm Hc Hk.
    assert (Hh : (0 <= c_out / 2)%Z) by (apply Z.div_pos; lia).
    unfold relative_biases, Py.mod_, randn.
    apply Z.eqb_neq in Hg. rewrite Hg. cbn [bind ret].
    rewrite Hm. cbn [Z.eqb negb].
    unfold sizes. cbn [existsb].
    destruct (Z.ltb_spec (c_out / 2) 0); [lia|].
    destruct (Z.ltb_spec k 0); [lia|]. cbn [orb bind ret].
    eexists. eexists. split; [reflexivity|]. split; reflexivity.
Qed.

Lemma construction_assertion_witness :
  (AttentionConv_init zero_draws 3 40 3 1 1 3 false 3 4 32 false
   = inl AssertionError
   <-> (40 mod 3 <> 0)%Z)
  /\ exists h w,
       relative_biases zero_draws 3 3 1 = inr (h, w)
       /\ shape h = [1; 1; 1; 3; 1]%nat
       /\ shape w = [1; 1; 1; 1; 3]%nat.
Proof.
  split.
  - apply (construction_assertion zero_draws 3 40 3 1 1 3 false 3 4 32 false).
    discriminate.
  - apply (construction_assertion zero_draws 3 3 3 1 1 1 false 3 4 32 false);
      [discriminate|reflexivity|lia|lia].
Defined.

(** C7, the claim as stated fails.  [out_channels = 3] is odd: the
    assertion passes and the relative biases are allocated with
    [3 // 2 = 1] channel; what ends this construction is the [TypeError]
    of the mask's constructor.  [out_channels = 16] is a multiple of
    [groups = 1] and of 2, and the construction ends in the same error:
    raising does not tell a violated precondition from a met one. *)
Lemma parity_not_checked :
  (3 mod 2 <> 0)%Z
  /\ (exists h w,
        relative_biases zero_draws 3 3 1 = inr (h, w)
        /\ shape h = [1; 1; 1; 3; 1]%nat
        /\ shape w = [1; 1; 1; 1; 3]%nat)
  /\ AttentionConv_init zero_draws 3 3 3 1 1 1 false 3 4 32 false
     = inl TypeError
  /\ (16 mod 1 = 0)%Z
  /\ (16 mod 2 = 0)%Z
  /\ AttentionConv_init zero_draws 3 16 3 1 1 1 false 3 4 32 false
     = inl TypeError.
Proof.
  split; [discriminate|].
  split; [eexists; eexists; split; [reflexivity|split; reflexivity]|].
  split; [reflexivity|].
  split; [reflexivity|].
  split; reflexivity.
Qed.

(** ** The weight grid *)

Lemma range_In (a b j : Z) : In j (Py.range a b) <-> (a <= j < b)%Z.
Proof.
  unfold Py.range. rewrite in_map_iff. split.
  - intros [k [<- Hk]]. apply in_seq in Hk. lia.
  - intros H. exists (Z.to_nat (j - a)). split; [lia|].
    apply in_seq. lia.
Qed.

(** What one pass of the loop assigns: the row [left] between the columns
    [left] and [right], and the row [right] after the column [left].  No
    cell of another row is in the list. *)
Lemma ring_indices_rows (left right r c : Z) :
  In (r, c) (ring_indices left right)
  <-> (r = left /\ left <= c <= right)%Z
      \/ (r = right /\ left < c <= right)%Z.
Proof.
  unfold ring_indices. rewrite !in_app_iff, !in_map_iff. split.
  - intros [H|[H|[H|H]]]; destruct H as [j [E Hj]]; injection E as <- <-;
      apply range_In in Hj; lia.
  - intros [[-> H]|[-> H]].
    + left. exists c. split; [reflexivity|]. apply range_In. lia.
    + right. right. left. exists c. split; [reflexivity|]. apply range_In. lia.
Qed.

(** C2, the code at [AdaptiveMask(2, 1)] on a 4 by 4 input: the ring
    weights are [[0, 1]]; the cell [(1, 0)] lies on the left column of ring
    0, but the pass for ring 0 does not list it and the grid keeps 1 there;
    so do [(2, 0)], [(3, 0)], [(1, 3)] and [(2, 3)]. *)
Theorem ring_zero_misses_columns :
  exists am one_d_mask m,
    AdaptiveMask_init (Py.Int 2) 1 default_init_val default_shape = inr am
    /\ (do t <- ramp am; slice_last (4 / 2) t) = inr one_d_mask
    /\ shape one_d_mask = [2%nat]
    /\ data one_d_mask [0%nat] == 0
    /\ mask_grid am 4 = inr m
    /\ on_ring 4 0 1 0 = true
    /\ ~ In (1, 0)%Z (ring_indices 0 3)
    /\ data m [1; 0]%nat == 1
    /\ data m [2; 0]%nat == 1
    /\ data m [3; 0]%nat == 1
    /\ data m [1; 3]%nat == 1
    /\ data m [2; 3]%nat == 1
    /\ data m [0; 0]%nat == 0.
Proof.
  eexists. eexists. eexists.
  split; [reflexivity|].
  split; [reflexivity|].
  split; [reflexivity|].
  split; [reflexivity|].
  split; [reflexivity|].
  split; [reflexivity|].
  split; [rewrite ring_indices_rows; lia|].
  conjuncts; evaluate.
Qed.

(** C3, the code at [AdaptiveMask(2, 1)] on a 4 by 4 input: the grid is
    not its own quarter turn, nor its own mirror image in either
    direction. *)
Theorem grid_not_symmetric :
  exists am m,
    AdaptiveMask_init (Py.Int 2) 1 default_init_val default_shape = inr am
    /\ mask_grid am 4 = inr m
    /\ shape m = [4; 4]%nat
    /\ map (fun idx => Qred (data m idx)) (indices [4; 4]%nat)
       = [0; 0; 0; 0;
          1; 1; 1; 1;
          1; 1; 1; 1;
          1; 0; 0; 0]
    /\ grid_eqb m (rot90 4 m) = false
    /\ grid_eqb m (flip_rows 4 m) = false
    /\ grid_eqb m (flip_cols 4 m) = false.
Proof.
  eexists. eexists.
  split; [reflexivity|].
  split; [reflexivity|].
  conjuncts; evaluate.
Qed.

(** ** An input of width one *)

(** The shapes a vector of [n >= 2] entries broadcasts to: itself, against
    at most one axis; otherwise the other shape with [n] on its last
    axis. *)
Lemma broadcast_vector (n : nat) (s r : list nat) :
  (2 <= n)%nat ->
  broadcast_shapes [n] s = Some r ->
  (r = [n] /\ (s = [] \/ s = [1%nat] \/ s = [n]))
  \/ (exists d0 q, r = d0 :: q ++ [n] /\ In d0 s /\ (2 <= length s)%nat).
Proof.
  intros Hn. unfold broadcast_shapes. simpl rev at 1.
  assert (Hs : s = rev (rev s)) by (symmetry; apply rev_involutive).
  revert Hs. generalize (rev s). intros rs ->.
  destruct rs as [|k t]; simpl.
  - intros H; injection H as <-. left. auto.
  - destruct t as [|k' t'].
    + simpl. destruct (Nat.eqb_spec n k) as [<-|Hk].
      * intros H; injection H as <-. left. auto.
      * destruct (Nat.eqb_spec n 1) as [->|_]; [lia|].
        destruct (Nat.eqb_spec k 1) as [->|_]; [|discriminate].
        intros H; injection H as <-. left. auto.
    + assert (Hb : bshape_rev [] (k' :: t') = Some (k' :: t')) by reflexivity.
      cbn [bshape_rev] in *.
      intros H.
      assert (Hr : r = rev (n :: k' :: t')).
      { destruct (n =? k)%nat; [injection H as <-; reflexivity|].
        destruct (Nat.eqb_spec n 1) as [->|_]; [lia|].
        destruct (k =? 1)%nat; [injection H as <-; reflexivity|discriminate]. }
      right. subst r. simpl.
      destruct (rev t' ++ [k']) as [|d0 q] eqn:E.
      { destruct (rev t'); discriminate. }
      exists d0, q. split; [reflexivity|].
      split; [simpl; auto|].
      simpl. rewrite length_app. simpl. lia.
Qed.

Lemma strip1_last (l : list nat) (n : nat) :
  n <> 1%nat -> strip1 (l ++ [n]) = strip1 l ++ [n].
Proof.
  intros Hn. induction l as [|a l IH]; simpl.
  - destruct n as [|[|n]]; try reflexivity. congruence.
  - destruct a as [|[|a]]; try reflexivity. exact IH.
Qed.

(** A ramp that is a vector of at least two entries: the first pass
    assigns its entry, the second finds an empty index list. *)
Lemma rings_width_one_vector (t : tensor) (n : nat) :
  shape t = [S (S n)] ->
  rings t (seq 0 (S (S n))) (full [1; 1]%nat 1) 0 0 = inl ValueError.
Proof.
  intros Hs. cbn [seq rings]. 
  change (Py.unzip2 (ring_indices 0 0)) with (@inr error _ ([0%Z], [0%Z])).
  cbn [bind fst snd].
  unfold select0. rewrite Hs. cbn [Nat.ltb Nat.leb bind ret].
  reflexivity.
Qed.

(** A ramp with more than one axis, the last of size [n >= 2]: the first
    pass assigns a block that is not one value per position. *)
Lemma rings_width_one_matrix (t : tensor) (d n : nat) (q : list nat) :
  (2 <= n)%nat ->
  shape t = S d :: q ++ [n] ->
  rings t (seq 0 (S d)) (full [1; 1]%nat 1) 0 0 = inl RuntimeError.
Proof.
  intros Hn Hs. cbn [seq rings].
  change (Py.unzip2 (ring_indices 0 0)) with (@inr error _ ([0%Z], [0%Z])).
  cbn [bind fst snd].
  unfold select0. rewrite Hs. cbn [Nat.ltb Nat.leb bind ret].
  unfold index_put2. cbn [shape full].
  change (mapM (wrap 1) [0%Z]) with (@inr error _ [0%nat]).
  cbn [bind combine length].
  rewrite strip1_last by lia.
  destruct (strip1 q) as [|a q']; cbn [app].
  - destruct (Nat.eqb_spec n 1) as [->|_]; [lia|reflexivity].
  - destruct q'; reflexivity.
Qed.

Lemma slice_last_zero (n : nat) : Py.slice_last 0 n = (0%nat, n).
Proof.
  unfold Py.slice_last, Py.clip. cbn [Z.opp Z.ltb Z.compare].
  destruct (Z.ltb_spec (Z.of_nat n) 0); [lia|].
  cbn [Z.to_nat]. rewrite Nat.sub_0_r. reflexivity.
Qed.

(** The weight grid for a last axis of size one, by the shape [s] of the
    span parameter: a ramp of [n >= 2] entries and no empty axis in [s]. *)
Lemma mask_grid_width_one (am : AdaptiveMask) (n : nat) (s : list nat) :
  shape (mask_template am) = [n] ->
  shape (current_val am) = s ->
  (2 <= n)%nat ->
  ~ In 0%nat s ->
  match broadcast_shapes [n] s with
  | None => mask_grid am 1 = inl RuntimeError
  | Some r =>
      (r = [n] /\ mask_grid am 1 = inl ValueError)
      \/ ((2 <= length s)%nat /\ mask_grid am 1 = inl RuntimeError)
  end.
Proof.
  intros Ht Hc Hn Hz.
  unfold mask_grid, ramp, add, binop. cbn [pointwise shape]. rewrite Ht, Hc.
  destruct (broadcast_shapes [n] s) as [r|] eqn:Eb; [|reflexivity].
  cbn [bind ret]. unfold slice_last, clamp. cbn [pointwise shape].
  change (Z.of_nat 1 / 2)%Z with 0%Z. change (Z.of_nat 1 - 1)%Z with 0%Z.
  destruct (broadcast_vector n s r Hn Eb) as [[-> _]|(d0 & q & -> & Hin & Hl)].
  - left. split; [reflexivity|].
    rewrite slice_last_zero. cbn [bind ret len narrow shape upd].
    destruct n as [|[|n']]; [lia|lia|].
    apply rings_width_one_vector. reflexivity.
  - right. split; [exact Hl|].
    rewrite slice_last_zero. cbn [bind ret len narrow shape upd].
    destruct d0 as [|d]; [contradiction|].
    apply (rings_width_one_matrix _ d n q Hn). reflexivity.
Qed.

(** C9 (as the code has it).  A mask constructed with [max_size >= 2] and
    a span parameter without an empty axis, applied to an input whose last
    axis has size 1, raises.  With the default shape the ramp is a vector
    as long as [max_size], the slice [-(1 // 2):] keeps all of it, the
    index list of the second pass is empty, and the error is the failed
    unpacking. *)
Theorem forward_width_one_raises (max_size : Py.number) (ramp_size : Z)
  (init_val : Q) (dims : list Z) (am : AdaptiveMask) (x : tensor) :
  AdaptiveMask_init max_size ramp_size init_val dims = inr am ->
  2 <= Py.value max_size ->
  ~ In 0%Z dims ->
  last_dim x = inr 1%nat ->
  raises (AdaptiveMask_forward am x)
  /\ (dims = default_shape ->
      exists one_d_mask kept n,
        ramp am = inr one_d_mask
        /\ slice_last (Z.of_nat 1 / 2) one_d_mask = inr kept
        /\ Py.value max_size == inject_Z (Z.of_nat n)
        /\ shape one_d_mask = [n]
        /\ shape kept = [n]
        /\ ring_indices 1 (-1) = []
        /\ AdaptiveMask_forward am x = inl ValueError).
Proof.
  intros Hinit Hmax Hz Hx.
  apply AdaptiveMask_init_inv in Hinit as (n & template & Hsteps & Hd & ->).
  pose proof (steps_of_ge_2 _ _ Hsteps Hmax) as Hn.
  assert (Hz' : ~ In 0%nat (map Z.to_nat dims)).
  { intros Hin. apply in_map_iff in Hin as (d & Hd0 & Hin).
    rewrite Forall_forall in Hd. specialize (Hd d Hin).
    apply Hz. replace 0%Z with d by lia. exact Hin. }
  match goal with |- context [AdaptiveMask_forward ?a x] => set (am := a) end.
  pose proof (mask_grid_width_one am n (map Z.to_nat dims)
                eq_refl eq_refl Hn Hz') as Hg.
  split.
  - unfold raises, AdaptiveMask_forward. rewrite Hx. cbn [bind].
    destruct (broadcast_shapes [n] (map Z.to_nat dims)) as [r|].
    + destruct Hg as [[_ ->]|[_ ->]]; cbn [bind]; eauto.
    + rewrite Hg. cbn [bind]. eauto.
  - intros ->. clear Hg.
    assert (Hb : broadcast_shapes [n] [1%nat] = Some [n]).
    { unfold broadcast_shapes. cbn [rev app bshape_rev].
      destruct (Nat.eqb_spec n 1) as [->|_]; [lia|]. reflexivity. }
    pose proof (mask_grid_width_one am n [1%nat] eq_refl eq_refl Hn Hz') as Hg.
    rewrite Hb in Hg. destruct Hg as [[_ Hg]|[Hl _]]; [|simpl in Hl; lia].
    unfold ramp, add, binop. cbn [pointwise shape am mask_template current_val].
    change (map Z.to_nat default_shape) with [1%nat]. rewrite Hb.
    cbn [bind ret].
    eexists. eexists. exists n.
    split; [reflexivity|].
    split.
    { unfold slice_last. cbn [clamp pointwise shape].
      change (Z.of_nat 1 / 2)%Z with 0%Z. rewrite slice_last_zero. reflexivity. }
    split; [exact (steps_of_value _ _ Hsteps)|].
    split; [reflexivity|].
    split; [reflexivity|].
    split; [reflexivity|].
    unfold AdaptiveMask_forward. rewrite Hx. cbn [bind]. rewrite Hg. reflexivity.
Qed.

Lemma forward_width_one_raises_witness :
  exists am,
    AdaptiveMask_init (Py.Int 2) 1 default_init_val default_shape = inr am
    /\ raises (AdaptiveMask_forward am (full [1]%nat 1)).
Proof.
  eexists. split; [reflexivity|].
  apply (forward_width_one_raises (Py.Int 2) 1 default_init_val default_shape _
           (full [1]%nat 1) eq_refl).
  - discriminate.
  - intros [H|[]]. discriminate H.
  - reflexivity.
Defined.

(** C9, the claim as stated fails.  With a span parameter of the shape
    [(0, 1)] the ramp has no row, the loop no pass, and [forward] returns
    the input of width one, times a grid of one weight 1.  With the shape
    [(1, 1)] the call raises, but in the first pass, where a row of two
    ramp values is assigned to one position: no index list is unpacked in
    vain. *)
Lemma forward_width_one_returns :
  (exists am out,
     AdaptiveMask_init (Py.Int 2) 1 default_init_val [0; 1]%Z = inr am
     /\ AdaptiveMask_forward am (full [1; 1]%nat 1) = inr out
     /\ shape out = [1; 1]%nat
     /\ data out [0; 0]%nat == 1)
  /\ (exists am,
        AdaptiveMask_init (Py.Int 2) 1 default_init_val [1; 1]%Z = inr am
        /\ Py.unzip2 (ring_indices 0 0) = inr ([0%Z], [0%Z])
        /\ AdaptiveMask_forward am (full [1; 1]%nat 1) = inl RuntimeError).
Proof.
  split.
  - eexists. eexists. split; [reflexivity|]. split; [reflexivity|].
    split; reflexivity.
  - eexists. split; [reflexivity|]. split; reflexivity.
Qed.

(** ** The forward pass *)

(** Zero entries pass through the operators of the value path. *)

Lemma Qsum_zero (l : list Q) : (forall v, In v l -> v == 0) -> Qsum l == 0.
Proof.
  induction l as [|v l IH]; simpl; intros H; [reflexivity|].
  rewrite (H v (or_introl eq_refl)), IH by auto. reflexivity.
Qed.

Lemma Qmult_zero_l (a b : Q) : a == 0 -> a * b == 0.
Proof. intros H. rewrite H. apply Qmult_0_l. Qed.

Lemma Qmult_zero_r (a b : Q) : b == 0 -> a * b == 0.
Proof. intros H. rewrite H. apply Qmult_0_r. Qed.

Lemma pad2_zero (p : Z) (x y : tensor) :
  all_zero x -> pad2 p x = inr y -> all_zero y.
Proof.
  unfold pad2. intros Hx H.
  destruct (rev (shape x)) as [|w [|h pre]]; try discriminate H.
  destruct (_ || _)%bool; [discriminate H|].
  injection H as <-. intros idx. cbn [data].
  destruct (rev idx) as [|j [|i lead]]; try reflexivity.
  destruct (_ && _)%bool; [apply Hx|reflexivity].
Qed.

Lemma conv2d_zero (c : Conv2d) (x y : tensor) :
  bias c = None -> all_zero x -> conv2d c x = inr y -> all_zero y.
Proof.
  unfold conv2d. intros Hb Hx H.
  destruct (shape x) as [|b [|cin [|h [|w [|? ?]]]]]; try discriminate H.
  destruct (shape (weight c)) as [|co [|ci [|? [|? [|? ?]]]]]; try discriminate H.
  destruct (cin =? ci)%nat; [|discriminate H].
  injection H as <-. intros idx. cbn [data]. rewrite Hb.
  destruct idx as [|i1 [|i2 [|i3 [|i4 [|? ?]]]]]; try reflexivity.
  rewrite Qsum_zero; [reflexivity|].
  intros v Hv. apply in_map_iff in Hv as (k & <- & _).
  apply Qmult_zero_l, Hx.
Qed.

Lemma unfold_zero (dim : nat) (size step : Z) (x y : tensor) :
  all_zero x -> unfold dim size step x = inr y -> all_zero y.
Proof.
  unfold unfold. intros Hx H.
  destruct (nth_error (shape x) dim); [|discriminate H].
  destruct (_ || _)%bool; [discriminate H|].
  injection H as <-. intros idx. apply Hx.
Qed.

Lemma view_infer_last_zero (dims : list Z) (x y : tensor) :
  all_zero x -> view_infer_last dims x = inr y -> all_zero y.
Proof.
  unfold view_infer_last. intros Hx H.
  destruct (sizes dims); [discriminate H|]. cbn [bind] in H.
  destruct (_ =? 0)%nat; [discriminate H|].
  destruct (_ =? 0)%nat; [|discriminate H].
  injection H as <-. intros idx. apply Hx.
Qed.

Lemma mul_zero_r (a b y : tensor) :
  all_zero b -> mul a b = inr y -> all_zero y.
Proof.
  unfold mul, binop. intros Hb H.
  destruct (broadcast_shapes _ _); [|discriminate H].
  injection H as <-. intros idx. cbn [data]. apply Qmult_zero_r, Hb.
Qed.

Lemma mul_zero_l (a b y : tensor) :
  all_zero a -> mul a b = inr y -> all_zero y.
Proof.
  unfold mul, binop. intros Ha H.
  destruct (broadcast_shapes _ _); [|discriminate H].
  injection H as <-. intros idx. cbn [data]. apply Qmult_zero_l, Ha.
Qed.

Lemma sum_dim_zero (dim : nat) (x y : tensor) :
  all_zero x -> sum_dim dim x = inr y -> all_zero y.
Proof.
  unfold sum_dim. intros Hx H.
  destruct (nth_error (shape x) dim); [|discriminate H].
  injection H as <-. intros idx. cbn [data].
  apply Qsum_zero. intros v Hv. apply in_map_iff in Hv as (k & <- & _).
  apply Hx.
Qed.

Lemma squeeze_zero (dim : nat) (x y : tensor) :
  all_zero x -> squeeze dim x = inr y -> all_zero y.
Proof.
  unfold squeeze. intros Hx H.
  destruct (nth_error (shape x) dim); [|discriminate H].
  destruct (_ =? 1)%nat; injection H as <-; [|exact Hx].
  intros idx. apply Hx.
Qed.

Lemma AdaptiveMask_forward_zero (self : AdaptiveMask) (x y : tensor) :
  all_zero x -> AdaptiveMask_forward self x = inr y -> all_zero y.
Proof.
  unfold AdaptiveMask_forward. intros Hx H.
  destruct (last_dim x); [discriminate H|]. cbn [bind] in H.
  destruct (mask_grid self _); [discriminate H|]. cbn [bind] in H.
  exact (mul_zero_l _ _ _ Hx H).
Qed.

(** Takes the next step of a computation that is known to return, and
    names the equation of the step. *)
Tactic Notation "step" hyp(H) ident(E) :=
  match type of H with
  | bind ?m _ = inr _ =>
      destruct m as [|[? ?]] eqn:E; [discriminate H|]; cbn [bind] in H
  | bind ?m _ = inr _ =>
      destruct m eqn:E; [discriminate H|]; cbn [bind] in H
  end.

(** C8, the code at [AttentionConv(3, 16, kernel_size=3, padding=1)] and an
    all-zero input of shape [(1, 3, 8, 8)]: for every parameter value and
    every exponential the construction raises, so that the forward pass is
    never reached; and so for every number of output channels.  Line 118
    makes [max_mask_size] the float [image_size/2], which the mask's
    constructor hands to [linspace] as its step count. *)
Theorem forward_zero_input_raises (rnd : draws) (exp : Q -> Q) :
  AttentionConv_init rnd 3 16 3 default_stride 1 default_groups default_bias
    default_R default_z_init default_image_size false = inl TypeError
  /\ (do l <- AttentionConv_init rnd 3 16 3 default_stride 1 default_groups
                default_bias default_R default_z_init default_image_size false;
      AttentionConv_forward exp l (full [1; 3; 8; 8]%nat 0))
     = inl TypeError
  /\ (forall c_out,
        raises
          (do l <- AttentionConv_init rnd 3 c_out 3 default_stride 1
                     default_groups default_bias default_R default_z_init
                     default_image_size false;
           AttentionConv_forward exp l (full [1; 3; 8; 8]%nat 0))).
Proof.
  assert (H : AttentionConv_init rnd 3 16 3 default_stride 1 default_groups
                default_bias default_R default_z_init default_image_size false
              = inl TypeError).
  { apply AttentionConv_init_TypeError; [reflexivity|reflexivity|lia|lia]. }
  split; [exact H|]. split; [rewrite H; reflexivity|].
  intros c_out.
  destruct (AttentionConv_init rnd 3 c_out 3 default_stride 1 default_groups
              default_bias default_R default_z_init default_image_size false)
    as [err|l] eqn:E.
  - exists err. reflexivity.
  - exfalso. exact (AttentionConv_init_no_layer _ _ _ _ _ _ _ _ _ _ _ _ _ E).
Qed.

(** * Further properties *)

(** ** The two size queries *)

Lemma constructed_max_size_nonneg (max_size : Py.number) (ramp_size : Z)
  (init_val : Q) (dims : list Z) (self : AdaptiveMask) :
  AdaptiveMask_init max_size ramp_size init_val dims = inr self ->
  exists n, Py.value max_size == inject_Z (Z.of_nat n)
            /\ 0 <= Py.value max_size
            /\ _max_size self = Py.value max_size
            /\ _ramp_size self = ramp_size.
Proof.
  intros H. apply AdaptiveMask_init_inv in H as (n & template & Hs & _ & ->).
  exists n. pose proof (steps_of_value _ _ Hs) as Hv.
  split; [exact Hv|]. split; [|split; reflexivity].
  rewrite Hv. change 0 with (inject_Z 0). rewrite <- Zle_Qle. lia.
Qed.

Lemma fold_Qmax_ge_init (l : list Q) (a : Q) : a <= fold_left Qmax l a.
Proof.
  revert a. induction l as [|y l IH]; intros a; simpl; [apply Qle_refl|].
  apply Qle_trans with (Qmax a y); [apply Q.le_max_l|apply IH].
Qed.

Lemma fold_Qmax_upper (l : list Q) (a x : Q) :
  x = a \/ In x l -> x <= fold_left Qmax l a.
Proof.
  revert a. induction l as [|y l IH]; intros a [Hx|Hx]; simpl.
  - subst. apply Qle_refl.
  - destruct Hx.
  - subst.
    apply Qle_trans with (Qmax a y); [apply Q.le_max_l|apply fold_Qmax_ge_init].
  - destruct Hx as [->|Hx].
    + apply Qle_trans with (Qmax a x); [apply Q.le_max_r|apply fold_Qmax_ge_init].
    + apply IH. right. exact Hx.
Qed.

Lemma Qsum_le_length (l : list Q) (m : Q) :
  (forall x, In x l -> x <= m) ->
  Qsum l <= inject_Z (Z.of_nat (length l)) * m.
Proof.
  induction l as [|x l IH]; intros H.
  - cbn [Qsum fold_right length Z.of_nat]. change (inject_Z 0) with 0. lra.
  - cbn [Qsum fold_right length]. fold (Qsum l).
    rewrite Nat2Z.inj_succ, <- Z.add_1_r, inject_Z_plus.
    specialize (IH (fun y Hy => H y (or_intror Hy))).
    pose proof (H x (or_introl eq_refl)).
    change (inject_Z 1) with 1. lra.
Qed.

Lemma mean_le_max (x : Q) (l : list Q) :
  Qsum (x :: l) / inject_Z (Z.of_nat (length (x :: l)))
  <= fold_left Qmax l x.
Proof.
  apply Qle_shift_div_r.
  - change 0 with (inject_Z 0). rewrite <- Zlt_Qlt. simpl length. lia.
  - rewrite Qmult_comm. apply Qsum_le_length.
    intros y [<-|Hy]; apply fold_Qmax_upper; auto.
Qed.

(** X1.  The average size is at most the maximum size: for a constructed mask
    and a non-empty span parameter both queries return, with the same
    [include_ramp], and [0 <= average <= maximum <= max_size]. *)
Theorem avg_size_le_max_size (max_size : Py.number) (ramp_size : Z) (init_val : Q)
  (dims : list Z) (self : AdaptiveMask) (v : tensor) (include_ramp : bool) :
  AdaptiveMask_init max_size ramp_size init_val dims = inr self ->
  indices (shape v) <> [] ->
  exists a m,
    get_current_avg_size (with_span self v) include_ramp = inr a
    /\ get_current_max_size (with_span self v) include_ramp = inr m
    /\ 0 <= a /\ a <= m /\ m <= Py.value max_size.
Proof.
  intros Hinit Hne.
  destruct (constructed_max_size_nonneg _ _ _ _ _ Hinit)
    as (n & _ & Hm & Emax & Eramp).
  unfold get_current_avg_size, get_current_max_size, mean_all, max_all.
  cbn [with_span current_val _max_size _ramp_size]. rewrite Emax, Eramp.
  destruct (map (data v) (indices (shape v))) as [|x l] eqn:E.
  { destruct (indices (shape v)); [congruence|discriminate E]. }
  cbn [bind ret]. eexists; eexists.
  split; [reflexivity|]. split; [reflexivity|].
  split; [apply py_max_min_bounds; exact Hm|].
  split; [|apply py_max_min_bounds; exact Hm].
  apply py_max_min_mono. rewrite <- Zle_Qle.
  assert (Hc : (Py.ceil (Qsum (x :: l) / inject_Z (Z.of_nat (length (x :: l)))
                         * Py.value max_size)
                <= Py.ceil (fold_left Qmax l x * Py.value max_size))%Z).
  { apply Qceiling_resp_le, Qmult_le_compat_r; [apply mean_le_max|exact Hm]. }
  destruct include_ramp; lia.
Qed.

Lemma avg_size_le_max_size_witness :
  exists self a m,
    AdaptiveMask_init (Py.Int 16) 3 default_init_val [2; 1]%Z = inr self
    /\ get_current_avg_size (with_span self (full [2; 1]%nat (1 # 2))) true
       = inr a
    /\ get_current_max_size (with_span self (full [2; 1]%nat (1 # 2))) true
       = inr m
    /\ 0 <= a /\ a <= m /\ m <= 16.
Proof.
  eexists.
  destruct (avg_size_le_max_size (Py.Int 16) 3 default_init_val [2; 1]%Z _
              (full [2; 1]%nat (1 # 2)) true eq_refl) as (a & m & H).
  - discriminate.
  - exists a, m. split; [reflexivity|exact H].
Defined.

(** X2.  With a ramp that is not negative, [include_ramp=True] never gives a
    smaller size than [include_ramp=False]. *)
Theorem ramp_never_shrinks_size (max_size : Py.number) (ramp_size : Z) (init_val : Q)
  (dims : list Z) (self : AdaptiveMask) (v : tensor) :
  AdaptiveMask_init max_size ramp_size init_val dims = inr self ->
  (0 <= ramp_size)%Z ->
  indices (shape v) <> [] ->
  exists bare padded,
    get_current_max_size (with_span self v) false = inr bare
    /\ get_current_max_size (with_span self v) true = inr padded
    /\ bare <= padded.
Proof.
  intros Hinit Hr Hne.
  destruct (constructed_max_size_nonneg _ _ _ _ _ Hinit)
    as (n & _ & Hm & Emax & Eramp).
  destruct (max_all_returns v Hne) as [m E].
  unfold get_current_max_size.
  cbn [with_span current_val _max_size _ramp_size]. rewrite E, Emax, Eramp.
  cbn [bind ret]. eexists; eexists.
  split; [reflexivity|]. split; [reflexivity|].
  apply py_max_min_mono. rewrite <- Zle_Qle. lia.
Qed.

Lemma ramp_never_shrinks_size_witness :
  exists self bare padded,
    AdaptiveMask_init (Py.Int 16) 3 default_init_val [2; 1]%Z = inr self
    /\ get_current_max_size (with_span self (full [2; 1]%nat (1 # 2))) false
       = inr bare
    /\ get_current_max_size (with_span self (full [2; 1]%nat (1 # 2))) true
       = inr padded
    /\ bare <= padded.
Proof.
  eexists.
  destruct (ramp_never_shrinks_size (Py.Int 16) 3 default_init_val [2; 1]%Z _
              (full [2; 1]%nat (1 # 2)) eq_refl) as (a & m & H).
  - discriminate.
  - discriminate.
  - exists a, m. split; [reflexivity|exact H].
Defined.

(** ** Clamping the span parameter *)

Lemma clamp01_range (v : Q) : 0 <= Qmin (Qmax v 0) 1 <= 1.
Proof.
  split; [|apply Q.le_min_r].
  apply Q.min_glb; [apply Q.le_max_r|lra].
Qed.

Lemma clamp01_fixed (v : Q) : 0 <= v <= 1 -> Qmin (Qmax v 0) 1 == v.
Proof.
  intros [H0 H1]. rewrite (Q.max_l v 0 H0). apply Q.min_l. exact H1.
Qed.

(** X3.  [clamp_param] brings every entry of the span parameter into [[0, 1]],
    leaves an entry that is already there as it is, changes nothing when
    it is called a second time, and touches neither the shape of the
    parameter nor the other fields of the mask. *)
Theorem clamp_param_idempotent (self : AdaptiveMask) :
  unit_range (current_val (clamp_param self))
  /\ (forall idx,
        0 <= data (current_val self) idx <= 1 ->
        data (current_val (clamp_param self)) idx == data (current_val self) idx)
  /\ (forall idx,
        data (current_val (clamp_param (clamp_param self))) idx
        == data (current_val (clamp_param self)) idx)
  /\ shape (current_val (clamp_param self)) = shape (current_val self)
  /\ _max_size (clamp_param self) = _max_size self
  /\ _ramp_size (clamp_param self) = _ramp_size self
  /\ mask_template (clamp_param self) = mask_template self.
Proof.
  split; [intros idx; apply clamp01_range|].
  split; [intros idx H; apply clamp01_fixed, H|].
  split; [intros idx; apply clamp01_fixed, clamp01_range|].
  repeat split.
Qed.

Lemma fold_Qmax_bounds (lo hi : Q) (l : list Q) (a : Q) :
  lo <= a <= hi -> (forall x, In x l -> lo <= x <= hi) ->
  lo <= fold_left Qmax l a <= hi.
Proof.
  revert a. induction l as [|y l IH]; intros a Ha H; simpl; [exact Ha|].
  apply IH; [|intros x Hx; apply H; right; exact Hx].
  destruct (H y (or_introl eq_refl)) as [Hy0 Hy1].
  split.
  - apply Qle_trans with a; [apply Ha|apply Q.le_max_l].
  - apply Q.max_lub; [apply Ha|exact Hy1].
Qed.

Lemma max_all_bounds (lo hi : Q) (v : tensor) (m : Q) :
  (forall idx, lo <= data v idx <= hi) ->
  max_all v = inr m -> lo <= m <= hi.
Proof.
  unfold max_all. intros H.
  destruct (map (data v) (indices (shape v))) as [|x l] eqn:E; [discriminate|].
  intros Hm; injection Hm as <-.
  assert (Hall : forall y, In y (x :: l) -> lo <= y <= hi).
  { intros y Hy. rewrite <- E in Hy.
    apply in_map_iff in Hy as (idx & <- & _). apply H. }
  apply fold_Qmax_bounds.
  - apply Hall. left. reflexivity.
  - intros y Hy. apply Hall. right. exact Hy.
Qed.

Lemma py_clamp_inside (m c : Q) :
  0 <= c <= m -> Py.max 0 (Py.min m c) == c.
Proof.
  intros [H0 H1]. unfold Py.max, Py.min.
  destruct (Qlt_le_dec c m); destruct (Qlt_le_dec 0 _); lra.
Qed.

(** X4.  Once [clamp_param] has been called, the size query without ramp is
    the plain [ceil(span * max_size)] of the largest span: its own clamp
    into [[0, max_size]] has nothing left to do. *)
Theorem clamped_size_is_ceiling (max_size : Py.number) (ramp_size : Z) (init_val : Q)
  (dims : list Z) (self : AdaptiveMask) (v : tensor) :
  AdaptiveMask_init max_size ramp_size init_val dims = inr self ->
  indices (shape v) <> [] ->
  exists span size,
    max_all (current_val (clamp_param (with_span self v))) = inr span
    /\ 0 <= span <= 1
    /\ get_current_max_size (clamp_param (with_span self v)) false = inr size
    /\ size == inject_Z (Py.ceil (span * Py.value max_size)).
Proof.
  intros Hinit Hne.
  destruct (constructed_max_size_nonneg _ _ _ _ _ Hinit)
    as (n & Hn & Hm & Emax & Eramp).
  assert (Hne' : indices (shape (clamp 0 1 v)) <> []) by exact Hne.
  destruct (max_all_returns _ Hne') as [span E].
  pose proof (max_all_bounds 0 1 (clamp 0 1 v) span
                (fun idx => clamp01_range (data v idx)) E) as Hspan.
  unfold get_current_max_size.
  cbn [clamp_param with_span current_val _max_size _ramp_size].
  rewrite E, Emax. cbn [bind ret].
  exists span. eexists. split; [reflexivity|]. split; [exact Hspan|].
  split; [reflexivity|].
  apply py_clamp_inside. unfold Py.ceil. split.
  - change 0 with (inject_Z 0). rewrite <- Zle_Qle.
    change 0%Z with (Qceiling 0). apply Qceiling_resp_le.
    apply Qmult_le_0_compat; [apply Hspan|exact Hm].
  - assert (Hc : (Qceiling (span * Py.value max_size) <= Z.of_nat n)%Z).
    { rewrite <- (Qceiling_Z (Z.of_nat n)). apply Qceiling_resp_le.
      rewrite <- Hn. destruct Hspan. nra. }
    apply Qle_trans with (inject_Z (Z.of_nat n)).
    + rewrite <- Zle_Qle. exact Hc.
    + apply Qle_lteq. right. symmetry. exact Hn.
Qed.

Lemma clamped_size_is_ceiling_witness :
  exists self span size,
    AdaptiveMask_init (Py.Int 16) 3 default_init_val [2; 1]%Z = inr self
    /\ max_all (current_val
                  (clamp_param (with_span self (full [2; 1]%nat 4))))
       = inr span
    /\ 0 <= span <= 1
    /\ get_current_max_size
         (clamp_param (with_span self (full [2; 1]%nat 4))) false = inr size
    /\ size == inject_Z (Py.ceil (span * 16)).
Proof.
  eexists.
  destruct (clamped_size_is_ceiling (Py.Int 16) 3 default_init_val [2; 1]%Z _
              (full [2; 1]%nat 4) eq_refl) as (a & m & H).
  - discriminate.
  - exists a, m. split; [reflexivity|exact H].
Defined.

(** ** The window of an adaptive layer *)

Lemma py_clamp_integral (m : Q) (n c : Z) :
  (0 <= n)%Z -> m == inject_Z n ->
  exists z, Py.max 0 (Py.min m (inject_Z c)) == inject_Z z /\ (0 <= z <= n)%Z.
Proof.
  intros Hn Hm. unfold Py.max, Py.min.
  destruct (Qlt_le_dec (inject_Z c) m) as [Hc|Hc].
  - destruct (Qlt_le_dec 0 (inject_Z c)) as [H0|H0].
    + exists c. split; [reflexivity|].
      rewrite Hm in Hc. rewrite <- Zlt_Qlt in Hc.
      change 0 with (inject_Z 0) in H0. rewrite <- Zlt_Qlt in H0. lia.
    + exists 0%Z. split; [reflexivity|lia].
  - destruct (Qlt_le_dec 0 m) as [H0|H0].
    + exists n. split; [exact Hm|lia].
    + exists 0%Z. split; [reflexivity|lia].
Qed.

Lemma int_half (z : Z) : Py.int (inject_Z (2 * z) / 2) = z.
Proof.
  unfold Py.int. cbn [Qnum Qden inject_Z Qdiv Qmult Qinv Pos.mul].
  replace (2 * z * 1)%Z with (z * 2)%Z by lia.
  apply Z.quot_mul. lia.
Qed.

Lemma ceil_twice_succ (s : Q) (z : Z) :
  s == inject_Z z -> Py.ceil (2 * (s + 1)) = (2 * z + 2)%Z.
Proof.
  intros Hs. unfold Py.ceil. rewrite <- (Qceiling_Z (2 * z + 2)).
  apply Qceiling_comp. rewrite Hs.
  unfold Qeq. cbn [Qnum Qden inject_Z Qmult Qplus Pos.mul]. lia.
Qed.

(** X5.  For a layer with [adaptive_span] set whose mask was constructed and
    then given any span parameter (not empty): the size query returns a
    whole number [z] with [0 <= z <= max_size], and the window of the call
    is [(2 * z + 3, z + 1)].  So the kernel size is odd, at least 3, and
    equal to twice the padding plus one. *)
Theorem adaptive_window_closed_form (max_size : Py.number) (ramp_size : Z)
  (init_val : Q) (dims : list Z) (am : AdaptiveMask) (self : AttentionConv)
  (v : tensor) :
  AdaptiveMask_init max_size ramp_size init_val dims = inr am ->
  adaptive_span self = true ->
  adaptive_mask self = with_span am v ->
  indices (shape v) <> [] ->
  exists size z,
    get_current_max_size (adaptive_mask self) true = inr size
    /\ size == inject_Z z
    /\ (0 <= z)%Z
    /\ inject_Z z <= Py.value max_size
    /\ window self = inr (2 * z + 3, z + 1)%Z.
Proof.
  intros Ham Ha Hmask Hne.
  destruct (constructed_max_size_nonneg _ _ _ _ _ Ham)
    as (n & Hn & Hm & Emax & Eramp).
  destruct (max_all_returns v Hne) as [m E].
  assert (Hs : get_current_max_size (adaptive_mask self) true
               = inr (Py.max 0
                        (Py.min (Py.value max_size)
                           (inject_Z (Py.ceil (m * Py.value max_size)
                                      + ramp_size))))).
  { rewrite Hmask. unfold get_current_max_size.
    cbn [with_span current_val _max_size _ramp_size].
    rewrite E, Emax, Eramp. reflexivity. }
  destruct (py_clamp_integral (Py.value max_size) (Z.of_nat n)
              (Py.ceil (m * Py.value max_size) + ramp_size)
              (Nat2Z.is_nonneg n) Hn) as (z & Hz & Hz0 & Hzn).
  eexists. exists z. split; [exact Hs|]. split; [exact Hz|].
  split; [lia|]. split.
  { rewrite Hn. rewrite <- Zle_Qle. lia. }
  unfold window. rewrite Ha, Hs. cbn [bind ret].
  rewrite (ceil_twice_succ _ z Hz).
  replace ((2 * z + 2) mod 2 =? 0)%Z with true.
  2:{ symmetry. apply Z.eqb_eq.
      replace (2 * z + 2)%Z with ((z + 1) * 2)%Z by lia. apply Z_mod_mult. }
  replace (2 * z + 2 + 1 - 1)%Z with (2 * (z + 1))%Z by lia.
  rewrite int_half.
  replace (2 * z + 2 + 1)%Z with (2 * z + 3)%Z by lia. reflexivity.
Qed.

Lemma adaptive_window_closed_form_witness :
  exists am size z,
    AdaptiveMask_init (Py.Int 16) 3 4 [1; 1]%Z = inr am
    /\ get_current_max_size (with_span am (full [1; 1]%nat (1 # 4))) true
       = inr size
    /\ size == inject_Z z
    /\ (0 <= z)%Z
    /\ inject_Z z <= 16
    /\ window (layer 3 16 33 1 0 1 true
                 (with_span am (full [1; 1]%nat (1 # 4))) 0)
       = inr (2 * z + 3, z + 1)%Z.
Proof.
  eexists.
  match goal with
  | |- exists size z, AdaptiveMask_init _ _ _ _ = inr ?a /\ _ =>
      destruct (adaptive_window_closed_form (Py.Int 16) 3 4 [1; 1]%Z a
                  (layer 3 16 33 1 0 1 true
                     (with_span a (full [1; 1]%nat (1 # 4))) 0)
                  (full [1; 1]%nat (1 # 4)) eq_refl eq_refl eq_refl)
        as (size & z & H)
  end.
  - discriminate.
  - exists size, z. split; [reflexivity|exact H].
Defined.

Lemma window_of_integral_size (self : AttentionConv) (size : Q) (z : Z) :
  adaptive_span self = true ->
  get_current_max_size (adaptive_mask self) true = inr size ->
  size == inject_Z z ->
  window self = inr (2 * z + 3, z + 1)%Z.
Proof.
  intros Ha Hs Hz. unfold window. rewrite Ha, Hs. cbn [bind ret].
  rewrite (ceil_twice_succ _ z Hz).
  replace ((2 * z + 2) mod 2 =? 0)%Z with true.
  2:{ symmetry. apply Z.eqb_eq.
      replace (2 * z + 2)%Z with ((z + 1) * 2)%Z by lia. apply Z_mod_mult. }
  replace (2 * z + 2 + 1 - 1)%Z with (2 * (z + 1))%Z by lia.
  rewrite int_half.
  replace (2 * z + 2 + 1)%Z with (2 * z + 3)%Z by lia. reflexivity.
Qed.

Lemma py_clamp_above (m c : Q) :
  0 <= m -> m <= c -> Py.max 0 (Py.min m c) == m.
Proof.
  intros H0 Hc. unfold Py.max, Py.min.
  destruct (Qlt_le_dec c m); destruct (Qlt_le_dec 0 _); lra.
Qed.

(** X6.  A span that is not clamped saturates the size query: as soon as one
    entry of the span parameter is 1 or more, the query returns [max_size]
    (with the ramp, when the ramp is not negative; without it, always). *)
Theorem size_saturates (max_size : Py.number) (ramp_size : Z) (init_val : Q)
  (dims : list Z) (self : AdaptiveMask) (v : tensor) (include_ramp : bool)
  (idx : list nat) :
  AdaptiveMask_init max_size ramp_size init_val dims = inr self ->
  (include_ramp = true -> (0 <= ramp_size)%Z) ->
  In idx (indices (shape v)) ->
  1 <= data v idx ->
  exists size,
    get_current_max_size (with_span self v) include_ramp = inr size
    /\ size == Py.value max_size.
Proof.
  intros Hinit Hr Hin H1.
  destruct (constructed_max_size_nonneg _ _ _ _ _ Hinit)
    as (n & Hn & Hm & Emax & Eramp).
  assert (Hne : indices (shape v) <> []).
  { intros E. rewrite E in Hin. destruct Hin. }
  destruct (max_all_returns v Hne) as [m E].
  assert (Hm1 : 1 <= m).
  { apply Qle_trans with (data v idx); [exact H1|].
    revert E. unfold max_all.
    pose proof (in_map (data v) _ _ Hin) as Hin'.
    destruct (map (data v) (indices (shape v))) as [|x l]; [discriminate|].
    intros E; injection E as <-. apply fold_Qmax_upper.
    destruct Hin' as [->|Hin']; auto. }
  unfold get_current_max_size.
  cbn [with_span current_val _max_size _ramp_size]. rewrite E, Emax, Eramp.
  cbn [bind ret]. eexists. split; [reflexivity|].
  apply py_clamp_above; [exact Hm|].
  assert (Hc : (Z.of_nat n <= Py.ceil (m * Py.value max_size))%Z).
  { unfold Py.ceil. rewrite <- (Qceiling_Z (Z.of_nat n)).
    apply Qceiling_resp_le. rewrite <- Hn. nra. }
  apply Qle_trans with (inject_Z (Z.of_nat n)).
  - apply Qle_lteq. right. exact Hn.
  - rewrite <- Zle_Qle. destruct include_ramp; [specialize (Hr eq_refl)|]; lia.
Qed.

Lemma size_saturates_witness :
  exists self size,
    AdaptiveMask_init (Py.Int 16) 3 4 [1; 1]%Z = inr self
    /\ get_current_max_size (with_span self (full [1; 1]%nat 4)) true
       = inr size
    /\ size == 16.
Proof.
  eexists.
  destruct (size_saturates (Py.Int 16) 3 4 [1; 1]%Z _ (full [1; 1]%nat 4) true
              [0; 0]%nat eq_refl) as (size & H).
  - intros _. discriminate.
  - left. reflexivity.
  - discriminate.
  - exists size. split; [reflexivity|exact H].
Defined.

(** X7.  In a layer with [adaptive_span] set whose mask was constructed, with
    a ramp size that is not negative, a span parameter with an entry of 1
    or more asks for the largest window there is: the kernel size of the
    call is [2 * max_size + 3] and the padding [max_size + 1], whatever
    kernel size the layer stores. *)
Theorem saturated_span_window (max_size : Py.number) (ramp_size : Z)
  (init_val : Q) (dims : list Z) (am : AdaptiveMask) (self : AttentionConv)
  (v : tensor) (idx : list nat) :
  AdaptiveMask_init max_size ramp_size init_val dims = inr am ->
  adaptive_span self = true ->
  adaptive_mask self = with_span am v ->
  (0 <= ramp_size)%Z ->
  In idx (indices (shape v)) ->
  1 <= data v idx ->
  exists z,
    Py.value max_size == inject_Z z
    /\ window self = inr (2 * z + 3, z + 1)%Z.
Proof.
  intros Ham Ha Hmask Hr Hin H1.
  destruct (constructed_max_size_nonneg _ _ _ _ _ Ham)
    as (n & Hn & Hm & Emax & Eramp).
  assert (Hne : indices (shape v) <> []).
  { intros E. rewrite E in Hin. destruct Hin. }
  destruct (max_all_returns v Hne) as [m E].
  assert (Hm1 : 1 <= m).
  { apply Qle_trans with (data v idx); [exact H1|].
    revert E. unfold max_all.
    pose proof (in_map (data v) _ _ Hin) as Hin'.
    destruct (map (data v) (indices (shape v))) as [|x l]; [discriminate|].
    intros E; injection E as <-. apply fold_Qmax_upper.
    destruct Hin' as [->|Hin']; auto. }
  assert (Hs : exists size,
             get_current_max_size (adaptive_mask self) true = inr size
             /\ size == inject_Z (Z.of_nat n)).
  { rewrite Hmask. unfold get_current_max_size.
    cbn [with_span current_val _max_size _ramp_size].
    rewrite E, Emax, Eramp. cbn [bind ret].
    eexists. split; [reflexivity|].
    rewrite <- Hn. apply py_clamp_above; [exact Hm|].
    assert (Hc : (Z.of_nat n <= Py.ceil (m * Py.value max_size))%Z).
    { unfold Py.ceil. rewrite <- (Qceiling_Z (Z.of_nat n)).
      apply Qceiling_resp_le. rewrite <- Hn. nra. }
    apply Qle_trans with (inject_Z (Z.of_nat n)).
    - apply Qle_lteq. right. exact Hn.
    - rewrite <- Zle_Qle. lia. }
  destruct Hs as (size & Hs & Hsz).
  exists (Z.of_nat n). split; [exact Hn|].
  exact (window_of_integral_size self size (Z.of_nat n) Ha Hs Hsz).
Qed.

Lemma saturated_span_window_witness :
  exists am z,
    AdaptiveMask_init (Py.Int 16) 3 4 [1; 1]%Z = inr am
    /\ 16 == inject_Z z
    /\ window (layer 3 16 33 1 0 1 true (with_span am (full [1; 1]%nat 4)) 0)
       = inr (2 * z + 3, z + 1)%Z.
Proof.
  eexists.
  match goal with
  | |- exists z, AdaptiveMask_init _ _ _ _ = inr ?a /\ _ =>
      destruct (saturated_span_window (Py.Int 16) 3 4 [1; 1]%Z a
                  (layer 3 16 33 1 0 1 true
                     (with_span a (full [1; 1]%nat 4)) 0)
                  (full [1; 1]%nat 4) [0; 0]%nat eq_refl eq_refl eq_refl)
        as (z & H)
  end.
  - discriminate.
  - left. reflexivity.
  - discriminate.
  - exists z. split; [reflexivity|exact H].
Defined.

(** ** The mask never amplifies *)

Lemma ramp_unit_range (self : AdaptiveMask) (t : tensor) :
  ramp self = inr t -> unit_range t.
Proof.
  unfold ramp, add, binop.
  destruct (broadcast_shapes _ _); [|discriminate].
  cbn [bind ret]. intros H; injection H as <-.
  intros idx. apply clamp01_range.
Qed.

Lemma slice_last_unit_range (k : Z) (t t' : tensor) :
  unit_range t -> slice_last k t = inr t' -> unit_range t'.
Proof.
  unfold slice_last. intros Ht H.
  destruct (shape t) as [|n rest]; [discriminate H|].
  destruct (Py.slice_last k n) as [a len]. injection H as <-.
  intros idx. apply Ht.
Qed.

Lemma select0_unit_range (i : nat) (t t' : tensor) :
  unit_range t -> select0 i t = inr t' -> unit_range t'.
Proof.
  unfold select0. intros Ht H.
  destruct (shape t) as [|n rest]; [discriminate H|].
  destruct (i <? n)%nat; [|discriminate H]. injection H as <-.
  intros idx. apply Ht.
Qed.

Lemma put_unit_range (ps : list (nat * nat)) (k : nat) (v : nat -> Q)
  (d : list nat -> Q) :
  (forall i, 0 <= v i <= 1) -> (forall idx, 0 <= d idx <= 1) ->
  forall idx, 0 <= put ps k v d idx <= 1.
Proof.
  intros Hv. revert k d. induction ps as [|[r c] ps IH]; intros k d Hd idx.
  - apply Hd.
  - cbn [put]. apply IH. intros idx'.
    destruct (idx_eqb idx' [r; c]); [apply Hv|apply Hd].
Qed.

Lemma index_put2_unit_range (m : tensor) (rows cols : list Z)
  (value m' : tensor) :
  unit_range m -> unit_range value ->
  index_put2 m rows cols value = inr m' ->
  unit_range m' /\ shape m' = shape m.
Proof.
  unfold index_put2. intros Hm Hv H.
  destruct (shape m) as [|h [|w [|? ?]]]; try discriminate H.
  destruct (mapM (wrap h) rows) as [|rs]; [discriminate H|]. cbn [bind] in H.
  destruct (mapM (wrap w) cols) as [|cs]; [discriminate H|]. cbn [bind] in H.
  destruct (strip1 (shape value)) as [|k [|? ?]]; try discriminate H.
  - injection H as <-. split; [|reflexivity].
    intros idx. apply put_unit_range; [intros _; apply Hv|apply Hm].
  - destruct (k =? _)%nat; [|discriminate H].
    injection H as <-. split; [|reflexivity].
    intros idx. apply put_unit_range; [intros i; apply Hv|apply Hm].
Qed.

Lemma rings_unit_range (t : tensor) (ks : list nat) :
  unit_range t ->
  forall (mask m' : tensor) (left right : Z),
    unit_range mask ->
    rings t ks mask left right = inr m' ->
    unit_range m' /\ shape m' = shape mask.
Proof.
  intros Ht. induction ks as [|i ks IH]; intros mask m' left right Hm H.
  - injection H as <-. auto.
  - cbn [rings] in H.
    destruct (Py.unzip2 _) as [|rc]; [discriminate H|]. cbn [bind] in H.
    destruct (select0 i t) as [|v] eqn:Ev; [discriminate H|]. cbn [bind] in H.
    destruct (index_put2 mask _ _ v) as [|mask'] eqn:Ep; [discriminate H|].
    cbn [bind] in H.
    destruct (index_put2_unit_range _ _ _ _ _ Hm
                (select0_unit_range _ _ _ Ht Ev) Ep) as [Hm' Hs].
    destruct (IH _ _ _ _ Hm' H) as [Hu Hs']. split; [exact Hu|congruence].
Qed.

Lemma mask_grid_weights (self : AdaptiveMask) (n : nat) (m : tensor) :
  mask_grid self n = inr m ->
  unit_range m /\ shape m = [n; n].
Proof.
  unfold mask_grid. intros H.
  destruct (ramp self) as [|t] eqn:Er; [discriminate H|]. cbn [bind] in H.
  destruct (slice_last _ t) as [|t'] eqn:Es; [discriminate H|]. cbn [bind] in H.
  destruct (len t') as [|l]; [discriminate H|]. cbn [bind] in H.
  apply (rings_unit_range t' (seq 0 l)) in H.
  - exact H.
  - exact (slice_last_unit_range _ _ _ (ramp_unit_range self t Er) Es).
  - intros idx. cbn [full data]. lra.
Qed.

(** X8.  Every weight of the grid [forward] builds lies in [[0, 1]], and the
    grid is [n] by [n]: for every mask with a ramp size other than zero, of
    any parameter shape, and every size [n] for which the construction of
    the grid returns. *)
Theorem mask_grid_unit_range (self : AdaptiveMask) (n : nat) (m : tensor) :
  (_ramp_size self <> 0)%Z ->
  mask_grid self n = inr m ->
  unit_range m /\ shape m = [n; n].
Proof.
  unfold mask_grid. intros _ H.
  destruct (ramp self) as [|t] eqn:Er; [discriminate H|]. cbn [bind] in H.
  destruct (slice_last _ t) as [|t'] eqn:Es; [discriminate H|]. cbn [bind] in H.
  destruct (len t') as [|l]; [discriminate H|]. cbn [bind] in H.
  apply (rings_unit_range t' (seq 0 l)) in H.
  - exact H.
  - exact (slice_last_unit_range _ _ _ (ramp_unit_range self t Er) Es).
  - intros idx. cbn [full data]. lra.
Qed.

Lemma mask_grid_unit_range_witness :
  exists am,
    AdaptiveMask_init (Py.Int 2) 1 default_init_val default_shape = inr am
    /\ exists m, mask_grid am 4 = inr m
                 /\ unit_range m
                 /\ shape m = [4; 4]%nat.
Proof.
  eexists. split; [reflexivity|].
  match goal with
  | |- exists m, mask_grid ?a 4 = inr m /\ _ =>
      destruct (mask_grid a 4) as [e|m] eqn:E
  end.
  - vm_compute in E. discriminate E.
  - exists m. split; [reflexivity|].
    refine (mask_grid_unit_range _ 4 m _ E). discriminate.
Defined.

Lemma bshape_rev_nil_r (a : list nat) : bshape_rev a [] = Some a.
Proof. destruct a; reflexivity. Qed.

Lemma broadcast_square (lead : list nat) (n : nat) :
  broadcast_shapes (lead ++ [n; n]) [n; n] = Some (lead ++ [n; n]).
Proof.
  unfold broadcast_shapes. rewrite rev_app_distr. cbn [rev app bshape_rev].
  rewrite bshape_rev_nil_r, !Nat.eqb_refl. cbn [option_map rev].
  rewrite rev_involutive, <- !app_assoc. reflexivity.
Qed.

Lemma bidx_valid (s idx : list nat) : valid_index s idx -> bidx s idx = idx.
Proof.
  unfold valid_index, bidx. intros H.
  rewrite (Forall2_length H), Nat.sub_diag. cbn [skipn].
  induction H as [|i d idx s Hlt _ IH]; [reflexivity|].
  cbn [combine map fst snd]. rewrite IH.
  destruct (Nat.eqb_spec d 1) as [->|_]; [|reflexivity].
  f_equal. lia.
Qed.

(** X9.  The mask never amplifies: for a ramp size other than zero, when
    [forward] returns on an input whose last two axes have the same size,
    the output has the shape of the input and each entry of the output is
    the entry of the input times a weight in [[0, 1]]. *)
Theorem forward_scales_down (self : AdaptiveMask) (x out : tensor)
  (lead : list nat) (n : nat) :
  (_ramp_size self <> 0)%Z ->
  AdaptiveMask_forward self x = inr out ->
  shape x = lead ++ [n; n] ->
  shape out = shape x
  /\ (forall idx, valid_index (shape x) idx ->
        exists w, 0 <= w <= 1 /\ data out idx = data x idx * w).
Proof.
  intros _ H Hs. unfold AdaptiveMask_forward, last_dim in H.
  rewrite Hs, rev_app_distr in H. cbn [rev app bind ret] in H.
  destruct (mask_grid self n) as [|m] eqn:Em; [discriminate H|].
  cbn [bind] in H.
  destruct (mask_grid_weights _ _ _ Em) as [Hu Hm].
  unfold mul, binop in H. rewrite Hs, Hm, broadcast_square in H.
  injection H as <-. cbn [shape data]. split; [symmetry; exact Hs|].
  intros idx Hv. rewrite <- Hs, (bidx_valid _ _ Hv).
  eexists. split; [apply Hu|reflexivity].
Qed.

Lemma forward_scales_down_witness :
  exists am,
    AdaptiveMask_init (Py.Int 2) 1 default_init_val default_shape = inr am
    /\ exists out,
         AdaptiveMask_forward am (full [3; 4; 4]%nat (1 # 2)) = inr out
         /\ shape out = [3; 4; 4]%nat
         /\ exists w, 0 <= w <= 1
                      /\ data out [2; 0; 1]%nat = (1 # 2) * w.
Proof.
  eexists. split; [reflexivity|].
  match goal with
  | |- exists out, AdaptiveMask_forward ?a ?x = inr out /\ _ =>
      assert (Hr : (_ramp_size a <> 0)%Z) by discriminate;
      destruct (AdaptiveMask_forward a x) as [e|out] eqn:E;
      [vm_compute in E; discriminate E|];
      destruct (forward_scales_down a x out [3%nat] 4 Hr E eq_refl)
        as [Hs Hw]
  end.
  exists out. split; [reflexivity|]. split; [exact Hs|].
  apply (Hw [2; 0; 1]%nat). repeat constructor.
Defined.

Lemma broadcast_non_square (lead : list nat) (h n : nat) :
  h <> n -> h <> 1%nat -> n <> 1%nat ->
  broadcast_shapes (lead ++ [h; n]) [n; n] = None.
Proof.
  intros Hhn Hh Hn.
  unfold broadcast_shapes. rewrite rev_app_distr. cbn [rev app bshape_rev].
  rewrite bshape_rev_nil_r.
  destruct (Nat.eqb_spec h n); [contradiction|].
  destruct (Nat.eqb_spec h 1); [contradiction|].
  destruct (Nat.eqb_spec n 1); [contradiction|].
  reflexivity.
Qed.

(** X10.  [forward] rejects an input whose last two axes have different sizes,
    neither of them 1: the square grid cannot be multiplied into it. *)
Theorem forward_rejects_non_square (self : AdaptiveMask) (x : tensor)
  (lead : list nat) (h n : nat) :
  shape x = lead ++ [h; n] ->
  h <> n -> h <> 1%nat -> n <> 1%nat ->
  raises (AdaptiveMask_forward self x).
Proof.
  intros Hs Hhn Hh Hn. unfold raises, AdaptiveMask_forward, last_dim.
  rewrite Hs, rev_app_distr. cbn [rev app bind ret].
  destruct (mask_grid self n) as [e|m] eqn:Em; cbn [bind]; [eauto|].
  destruct (mask_grid_weights _ _ _ Em) as [_ Hm].
  unfold mul, binop. rewrite Hs, Hm, broadcast_non_square by assumption.
  eauto.
Qed.

Lemma forward_rejects_non_square_witness :
  exists am,
    AdaptiveMask_init (Py.Int 2) 1 default_init_val default_shape = inr am
    /\ raises (AdaptiveMask_forward am (full [3; 4]%nat 1)).
Proof.
  eexists. split; [reflexivity|].
  apply (forward_rejects_non_square _ (full [3; 4]%nat 1) [] 3 4 eq_refl);
    discriminate.
Defined.

(** ** A span parameter with one row per group *)

Lemma range_length (a b : Z) : length (Py.range a b) = Z.to_nat (b - a).
Proof. unfold Py.range. rewrite length_map, length_seq. reflexivity. Qed.

Lemma ring_indices_length (left right : Z) :
  length (ring_indices left right)
  = (Z.to_nat (right + 1 - left) + Z.to_nat (right - left)
     + Z.to_nat (right - left) + Z.to_nat (right - left - 1))%nat.
Proof.
  unfold ring_indices. rewrite !length_app, !length_map, !range_length.
  replace (right + 1 - (left + 1))%Z with (right - left)%Z by lia.
  replace (right - (left + 1))%Z with (right - left - 1)%Z by lia.
  lia.
Qed.

Lemma mapM_length {A B} (f : A -> result B) (l : list A) (l' : list B) :
  mapM f l = inr l' -> length l' = length l.
Proof.
  revert l'. induction l as [|a l IH]; intros l' H.
  - injection H as <-. reflexivity.
  - cbn [mapM] in H.
    destruct (f a); [discriminate H|]. cbn [bind] in H.
    destruct (mapM f l) as [|bs]; [discriminate H|]. cbn [bind] in H.
    injection H as <-. cbn [length]. rewrite (IH bs eq_refl). reflexivity.
Qed.

Lemma broadcast_vector_rows (m rows : nat) :
  broadcast_shapes [m] [S rows; 1%nat] = Some [S rows; m].
Proof.
  unfold broadcast_shapes. cbn [rev app bshape_rev].
  destruct (m =? 1)%nat eqn:E; [|reflexivity].
  apply Nat.eqb_eq in E. subst. reflexivity.
Qed.

Lemma slice_last_keeps_a_row (k : Z) (rows : nat) :
  (0 <= k)%Z ->
  exists a kept, Py.slice_last k (S rows) = (a, S kept).
Proof.
  intros Hk. unfold Py.slice_last, Py.clip.
  destruct (Z.ltb_spec (- k) 0).
  - destruct (Z.ltb_spec (- k + Z.of_nat (S rows)) 0).
    + exists 0%nat, rows. reflexivity.
    + destruct (Z.ltb_spec (Z.of_nat (S rows)) (- k + Z.of_nat (S rows)));
        [lia|].
      eexists. exists (S rows - Z.to_nat (- k + Z.of_nat (S rows)) - 1)%nat.
      f_equal. lia.
  - destruct (Z.ltb_spec (- k) 0); [lia|].
    destruct (Z.ltb_spec (Z.of_nat (S rows)) (- k)); [lia|].
    eexists. exists (S rows - Z.to_nat (- k) - 1)%nat. f_equal. lia.
Qed.

Lemma broadcast_last (a s : list nat) (n : nat) (ra : list nat) :
  rev a = n :: ra ->
  broadcast_shapes a [n; n] = Some s ->
  exists rs, rev s = n :: rs.
Proof.
  unfold broadcast_shapes. intros Ha. rewrite Ha. cbn [rev app bshape_rev].
  destruct (bshape_rev ra [n]) as [r|]; [|discriminate].
  rewrite Nat.eqb_refl. cbn [option_map]. intros H; injection H as <-.
  exists r. rewrite rev_app_distr, rev_involutive. reflexivity.
Qed.

(** A mask whose span parameter has one row per group, with a ramp of at
    least two entries: [forward] returns only for inputs of one width. *)
Lemma matrix_span_forward_width (am : AdaptiveMask) (m rows : nat)
  (t out : tensor) :
  shape (mask_template am) = [m] ->
  shape (current_val am) = [S rows; 1%nat] ->
  (2 <= m)%nat ->
  AdaptiveMask_forward am t = inr out ->
  exists n,
    last_dim t = inr n
    /\ (Z.of_nat m = 4 * Z.of_nat n - 4)%Z
    /\ last_dim out = inr n.
Proof.
  intros Ht Hc Hm H. unfold AdaptiveMask_forward in H.
  destruct (last_dim t) as [|n] eqn:En; [discriminate H|]. cbn [bind] in H.
  destruct (mask_grid am n) as [|mask] eqn:Em; [discriminate H|].
  cbn [bind] in H. exists n. split; [reflexivity|].
  destruct (mask_grid_weights _ _ _ Em) as [_ Hmask].
  split.
  - unfold mask_grid, ramp, add, binop in Em.
    cbn [pointwise shape] in Em.
    rewrite Ht, Hc, broadcast_vector_rows in Em. cbn [bind ret] in Em.
    unfold slice_last, clamp in Em. cbn [pointwise shape] in Em.
    destruct (slice_last_keeps_a_row (Z.of_nat n / 2) rows) as (a & kept & Es).
    { apply Z.div_pos; lia. }
    rewrite Es in Em. cbn [bind ret] in Em.
    match type of Em with
    | context [len ?u] =>
        set (t' := u) in Em;
        assert (Hs' : shape t' = [S kept; m]) by reflexivity
    end.
    unfold len in Em. rewrite Hs' in Em. cbn [bind ret seq rings] in Em.
    destruct (Py.unzip2 _) as [|rc] eqn:Eu; [discriminate Em|].
    cbn [bind] in Em.
    unfold select0 in Em. rewrite Hs' in Em.
    cbn [Nat.ltb Nat.leb bind ret] in Em.
    unfold index_put2 in Em. cbn [shape full] in Em.
    destruct (mapM (wrap n) (fst rc)) as [|rs] eqn:Ers; [discriminate Em|].
    cbn [bind] in Em.
    destruct (mapM (wrap n) (snd rc)) as [|cs] eqn:Ecs; [discriminate Em|].
    cbn [bind] in Em.
    assert (Hstrip : strip1 [m] = [m]).
    { destruct m as [|[|m']]; [lia|lia|reflexivity]. }
    rewrite Hstrip in Em.
    destruct (Nat.eqb_spec m (length (combine rs cs))) as [Hlen|];
      [|discriminate Em].
    apply mapM_length in Ers. apply mapM_length in Ecs.
    unfold Py.unzip2 in Eu.
    destruct (ring_indices 0 (Z.of_nat n - 1)) as [|i0 is0] eqn:Ei;
      [discriminate Eu|].
    injection Eu as <-. cbn [fst snd] in Ers, Ecs.
    cbn [length] in Ers, Ecs. rewrite !length_map in Ers, Ecs.
    rewrite length_combine, Ers, Ecs, Nat.min_id in Hlen.
    change (S (length is0)) with (length (i0 :: is0)) in Hlen.
    rewrite <- Ei, ring_indices_length in Hlen. lia.
  - unfold mul, binop in H.
    destruct (broadcast_shapes (shape t) (shape mask)) as [s|] eqn:Eb;
      [|discriminate H].
    injection H as <-. unfold last_dim in *. cbn [shape].
    destruct (rev (shape t)) as [|n' ra] eqn:Er; [discriminate En|].
    injection En as ->. rewrite Hmask in Eb.
    destruct (broadcast_last _ _ _ _ Er Eb) as [rs ->]. reflexivity.
Qed.

(** X11.  A mask constructed with [max_size >= 2] and the parameter shape
    [(groups, 1)] that [AttentionConv] gives it, for at least one group,
    returns from [forward] only on inputs of one width [n], the one with
    [max_size = 4 * n - 4], whatever the span values are: the loop assigns
    a row of [max_size] ramp values to the [4 * n - 4] positions its first
    pass lists. *)
Theorem forward_returns_one_width (max_size : Py.number) (ramp_size : Z)
  (init_val : Q) (g : Z) (am : AdaptiveMask) (v x out : tensor) :
  AdaptiveMask_init max_size ramp_size init_val [g; 1%Z] = inr am ->
  2 <= Py.value max_size ->
  (1 <= g)%Z ->
  shape v = shape (current_val am) ->
  AdaptiveMask_forward (with_span am v) x = inr out ->
  exists n,
    last_dim x = inr n
    /\ last_dim out = inr n
    /\ Py.value max_size == inject_Z (4 * Z.of_nat n - 4).
Proof.
  intros Hinit Hmax Hg Hv H.
  apply AdaptiveMask_init_inv in Hinit as (steps & template & Hsteps & _ & ->).
  pose proof (steps_of_ge_2 _ _ Hsteps Hmax) as Hn.
  destruct (Z.to_nat g) as [|rows] eqn:Eg; [lia|].
  cbn [current_val shape map] in Hv. rewrite Eg in Hv.
  match type of H with
  | AdaptiveMask_forward ?a x = _ =>
      destruct (matrix_span_forward_width a steps rows x out eq_refl Hv Hn H)
        as (n & Hx & Hm & Hout)
  end.
  exists n. split; [exact Hx|]. split; [exact Hout|].
  rewrite (steps_of_value _ _ Hsteps), Hm. reflexivity.
Qed.

Lemma forward_returns_one_width_witness :
  exists am,
    AdaptiveMask_init (Py.Int 4) 3 4 [1; 1]%Z = inr am
    /\ exists out,
         AdaptiveMask_forward (with_span am (full [1; 1]%nat (1 # 2)))
           (full [1; 2; 2; 2]%nat 1) = inr out
         /\ exists n,
              last_dim (full [1; 2; 2; 2]%nat 1) = inr n
              /\ last_dim out = inr n
              /\ 4 == inject_Z (4 * Z.of_nat n - 4).
Proof.
  eexists. split; [reflexivity|].
  match goal with
  | |- exists out, AdaptiveMask_forward (with_span ?a ?v) ?x = inr out /\ _ =>
      destruct (AdaptiveMask_forward (with_span a v) x) as [err|out] eqn:E;
      [vm_compute in E; discriminate E|];
      exists out; split; [reflexivity|];
      refine (forward_returns_one_width (Py.Int 4) 3 4 1 a v x out
                eq_refl _ _ eq_refl E)
  end.
  - discriminate.
  - lia.
Defined.

(** X12.  Zero in, zero out: for a layer whose value projection has no bias
    and whose ramp size is not zero, whatever the forward pass returns on
    an all-zero input is all zero, for every value of the weights, the
    relative biases and the span. *)
Theorem forward_zero_in_zero_out (exp : Q -> Q) (self : AttentionConv)
  (x out : tensor) :
  bias (value_conv self) = None ->
  (_ramp_size (adaptive_mask self) <> 0)%Z ->
  all_zero x ->
  AttentionConv_forward exp self x = inr out ->
  all_zero out.
Proof.
  intros Hb _ Hx H. unfold AttentionConv_forward in H.
  destruct (shape x) as [|b [|c [|h [|w [|? ?]]]]]; try discriminate H.
  step H Ewin. step H Epad.
  step H Equery. step H Ek. step H Ev.
  step H Ek2. step H Ek3. step H Ev2. step H Ev3.
  step H Erel. step H Esplit. step H Eunpack.
  step H Ekh. step H Ekw. step H Ecat. step H Egroup.
  step H Ekview. step H Evview. step H Eqview.
  step H Eqk. step H Eout. step H Esoft. step H Eun.
  step H Ew. step H Es. step H Esq.
  pose proof (pad2_zero _ _ _ Hx Epad) as Z1.
  pose proof (conv2d_zero _ _ _ Hb Z1 Ev) as Z2.
  pose proof (unfold_zero _ _ _ _ _ Z2 Ev2) as Z3.
  pose proof (unfold_zero _ _ _ _ _ Z3 Ev3) as Z4.
  pose proof (view_infer_last_zero _ _ _ Z4 Evview) as Z5.
  pose proof (mul_zero_r _ _ _ Z5 Ew) as Z6.
  pose proof (sum_dim_zero _ _ _ Z6 Es) as Z7.
  pose proof (squeeze_zero _ _ _ Z7 Esq) as Z8.
  exact (AdaptiveMask_forward_zero _ _ _ Z8 H).
Qed.

Lemma forward_zero_in_zero_out_witness :
  exists am,
    AdaptiveMask_init (Py.Int 4) 3 4 [1; 1]%Z = inr am
    /\ exists out,
         AttentionConv_forward (fun _ => 1) (layer 1 2 3 1 1 1 false am 1)
           (full [1; 1; 2; 2]%nat 0)
         = inr out
         /\ all_zero out.
Proof.
  eexists. split; [reflexivity|].
  match goal with
  | |- exists out, AttentionConv_forward ?e ?a ?x = inr out /\ _ =>
      assert (Hs : shape_of (AttentionConv_forward e a x)
                   = inr [1; 2; 2; 2]%nat) by (vm_compute; reflexivity);
      destruct (AttentionConv_forward e a x) as [err|out] eqn:E
  end.
  - discriminate Hs.
  - exists out. split; [reflexivity|].
    refine (forward_zero_in_zero_out (fun _ => 1) _
              (full [1; 1; 2; 2]%nat 0) out _ _ _ E).
    + reflexivity.
    + discriminate.
    + intros idx. reflexivity.
Defined.

(** ** The shape of what the forward pass returns *)

Lemma view_infer_last_shape (dims : list Z) (t t' : tensor) :
  view_infer_last dims t = inr t' ->
  Forall (fun d => 0 <= d)%Z dims
  /\ exists last, shape t' = map Z.to_nat dims ++ [last].
Proof.
  unfold view_infer_last. intros H.
  destruct (sizes dims) as [|sz] eqn:Es; [discriminate H|].
  apply sizes_inv in Es as [-> Hd]. cbn [bind] in H.
  destruct (_ =? 0)%nat; [discriminate H|].
  destruct (_ =? 0)%nat; [|discriminate H].
  injection H as <-. split; [exact Hd|]. eexists. reflexivity.
Qed.

Lemma view_shape (dims : list Z) (t t' : tensor) :
  view dims t = inr t' -> shape t' = map Z.to_nat dims.
Proof.
  unfold view. intros H.
  destruct (sizes dims) as [|sz] eqn:Es; [discriminate H|].
  apply sizes_inv in Es as [-> _]. cbn [bind] in H.
  destruct (_ =? _)%nat; [|discriminate H].
  injection H as <-. reflexivity.
Qed.

Lemma mul_shape (a b t : tensor) :
  mul a b = inr t -> broadcast_shapes (shape a) (shape b) = Some (shape t).
Proof.
  unfold mul, binop. destruct (broadcast_shapes _ _); [|discriminate].
  intros H; injection H as <-. reflexivity.
Qed.

Lemma softmax_last_shape (exp : Q -> Q) (t t' : tensor) :
  softmax_last exp t = inr t' -> shape t' = shape t.
Proof.
  unfold softmax_last. destruct (rev (shape t));
    intros H; injection H as <-; reflexivity.
Qed.

Lemma broadcast_query_key (b g c h w n : nat) (s : list nat) :
  broadcast_shapes [b; g; c; h; w; 1%nat] [b; g; c; h; w; n] = Some s ->
  s = [b; g; c; h; w; n].
Proof.
  unfold broadcast_shapes. cbn [rev app bshape_rev].
  rewrite !Nat.eqb_refl.
  destruct (1 =? n)%nat eqn:E.
  - apply Nat.eqb_eq in E. subst n. intros H; injection H as <-. reflexivity.
  - intros H; injection H as <-. reflexivity.
Qed.

Lemma broadcast_weights_values (b g c h w n n' : nat) (s : list nat) :
  broadcast_shapes [b; g; 1%nat; h; w; n] [b; g; c; h; w; n'] = Some s ->
  exists n'', s = [b; g; c; h; w; n''].
Proof.
  unfold broadcast_shapes. cbn [rev app bshape_rev].
  rewrite !Nat.eqb_refl.
  assert (Hc : (if (1 =? c)%nat then Some [1%nat; g; b]
                else Some [c; g; b]) = Some [c; g; b]).
  { destruct (Nat.eqb_spec 1 c) as [<-|_]; reflexivity. }
  rewrite Hc.
  destruct (n =? n')%nat; [intros H; injection H as <-; eauto|].
  destruct (n =? 1)%nat; [intros H; injection H as <-; eauto|].
  destruct (n' =? 1)%nat; [intros H; injection H as <-; eauto|discriminate].
Qed.

Lemma mask_forward_square_shape (self : AdaptiveMask) (x out : tensor)
  (lead : list nat) (n : nat) :
  AdaptiveMask_forward self x = inr out ->
  shape x = lead ++ [n; n] ->
  shape out = shape x.
Proof.
  intros H Hs. unfold AdaptiveMask_forward, last_dim in H.
  rewrite Hs, rev_app_distr in H. cbn [rev app bind ret] in H.
  destruct (mask_grid self n) as [|m] eqn:Em; [discriminate H|].
  cbn [bind] in H.
  destruct (mask_grid_weights _ _ _ Em) as [_ Hm].
  apply mul_shape in H. rewrite Hs, Hm, broadcast_square in H.
  injection H as <-. symmetry. exact Hs.
Qed.

Lemma sum_dim_shape (dim : nat) (t t' : tensor) :
  sum_dim dim t = inr t' -> shape t' = remove_at dim (shape t).
Proof.
  unfold sum_dim. destruct (nth_error (shape t) dim); [|discriminate].
  intros H; injection H as <-. reflexivity.
Qed.

Lemma unsqueeze_shape (dim : nat) (t t' : tensor) :
  unsqueeze dim t = inr t' -> shape t' = insert_at dim 1%nat (shape t).
Proof.
  unfold unsqueeze. destruct (_ <? _)%nat; [discriminate|].
  intros H; injection H as <-. reflexivity.
Qed.

Lemma squeeze_shape (dim : nat) (t t' : tensor) :
  squeeze dim t = inr t' ->
  shape t' = if (nth dim (shape t) 0 =? 1)%nat
             then remove_at dim (shape t) else shape t.
Proof.
  unfold squeeze. destruct (nth_error (shape t) dim) as [n|] eqn:E;
    [|discriminate].
  rewrite (nth_error_nth _ _ 0%nat E).
  destruct (n =? 1)%nat; intros H; injection H as <-; reflexivity.
Qed.

(** Takes the next step of a computation that is known to return, names
    the equation of the step, and opens a returned pair. *)
Tactic Notation "advance" hyp(H) ident(E) :=
  match type of H with
  | bind ?m _ = inr _ =>
      let r := fresh "r" in
      destruct m as [|r] eqn:E; [discriminate H|]; cbn [bind] in H;
      try match type of r with (_ * _)%type => destruct r end
  end.

(** X13.  When the forward pass returns on a square input of shape
    [(b, c, h, h)], the result has the shape [(b, out_channels, h, h)] for
    one group; for any other number of groups the group axis is still
    there: [(b, groups, out_channels // groups, h, h)]. *)
Theorem forward_output_shape (exp : Q -> Q) (self : AttentionConv)
  (x out : tensor) (b c h : nat) :
  AttentionConv_forward exp self x = inr out ->
  shape x = [b; c; h; h] ->
  shape out
  = if (groups self =? 1)%Z
    then [b; Z.to_nat (out_channels self); h; h]
    else [b; Z.to_nat (groups self);
          Z.to_nat (out_channels self / groups self); h; h].
Proof.
  intros H Hx. unfold AttentionConv_forward in H. rewrite Hx in H.
  advance H Ewin. advance H Epad.
  advance H Equery. advance H Ek. advance H Ev.
  advance H Ek2. advance H Ek3. advance H Ev2. advance H Ev3.
  advance H Erel. advance H Esplit. advance H Eunpack.
  advance H Ekh. advance H Ekw. advance H Ecat. advance H Egroup.
  advance H Ekview. advance H Evview. advance H Eqview.
  advance H Eqk. advance H Eout. advance H Esoft. advance H Eun.
  advance H Ew. advance H Es. advance H Esq.
  unfold Py.floordiv in Egroup.
  destruct (groups self =? 0)%Z eqn:Eg0; [discriminate Egroup|].
  injection Egroup as <-.
  apply view_infer_last_shape in Ekview as (Hdims & nk & Hk).
  apply view_infer_last_shape in Evview as (_ & nv & Hv).
  apply view_shape in Eqview.
  cbn [map app] in Hk, Hv, Eqview. rewrite !Nat2Z.id in Hk, Hv, Eqview.
  change (Z.to_nat 1) with 1%nat in Eqview.
  apply mul_shape in Eqk. rewrite Eqview, Hk in Eqk.
  apply broadcast_query_key in Eqk.
  apply sum_dim_shape in Eout. rewrite Eqk in Eout. cbn [remove_at] in Eout.
  apply softmax_last_shape in Esoft. rewrite Eout in Esoft.
  apply unsqueeze_shape in Eun. rewrite Esoft in Eun. cbn [insert_at] in Eun.
  apply mul_shape in Ew. rewrite Eun, Hv in Ew.
  apply broadcast_weights_values in Ew as [n'' Ew].
  apply sum_dim_shape in Es. rewrite Ew in Es.
  cbn [length Nat.sub remove_at] in Es.
  apply squeeze_shape in Esq. rewrite Es in Esq. cbn [nth remove_at] in Esq.
  inversion Hdims as [|? ? _ Hd']; subst.
  inversion Hd' as [|? ? Hg _]; subst.
  destruct (Z.eqb_spec (groups self) 1) as [Eg1|Eg1].
  - rewrite Eg1 in Esq.
    cbn [Z.to_nat Pos.to_nat Pos.iter_op Nat.add Nat.eqb] in Esq.
    rewrite Z.div_1_r in Esq.
    rewrite (mask_forward_square_shape _ _ _
               [b; Z.to_nat (out_channels self)] h H); exact Esq.
  - destruct (Nat.eqb_spec (Z.to_nat (groups self)) 1) as [E1|_]; [lia|].
    rewrite (mask_forward_square_shape _ _ _
               [b; Z.to_nat (groups self);
                Z.to_nat (out_channels self / groups self)] h H); exact Esq.
Qed.

Lemma forward_output_shape_witness :
  exists am,
    AdaptiveMask_init (Py.Int 4) 3 4 [1; 1]%Z = inr am
    /\ exists out,
         AttentionConv_forward (fun _ => 1) (layer 1 2 3 1 1 1 false am 1)
           (full [1; 1; 2; 2]%nat 1)
         = inr out
         /\ shape out = [1; 2; 2; 2]%nat.
Proof.
  eexists. split; [reflexivity|].
  match goal with
  | |- exists out, AttentionConv_forward ?e ?a ?x = inr out /\ _ =>
      assert (Hs : shape_of (AttentionConv_forward e a x)
                   = inr [1; 2; 2; 2]%nat) by (vm_compute; reflexivity);
      destruct (AttentionConv_forward e a x) as [err|out] eqn:E
  end.
  - discriminate Hs.
  - exists out. split; [reflexivity|].
    exact (forward_output_shape (fun _ => 1) _ (full [1; 1; 2; 2]%nat 1) out
             1 1 2 E eq_refl).
Defined.

(** ** An empty span parameter *)

Lemma indices_empty (s : list nat) : In 0%nat s -> indices s = [].
Proof.
  induction s as [|d s IH]; intros H; [destruct H|].
  cbn [indices]. destruct H as [->|H]; [reflexivity|].
  rewrite (IH H). induction (seq 0 d) as [|i l IHl]; [reflexivity|].
  cbn [flat_map map app]. exact IHl.
Qed.

(** X14.  With a span parameter that has an axis of size zero, both size queries
    raise: the maximum of no element does not exist, and the ceiling of a
    mean that is not a number is refused. *)
Theorem size_queries_reject_empty_span (self : AdaptiveMask)
  (include_ramp : bool) :
  In 0%nat (shape (current_val self)) ->
  get_current_max_size self include_ramp = inl RuntimeError
  /\ get_current_avg_size self include_ramp = inl ValueError.
Proof.
  intros H. unfold get_current_max_size, get_current_avg_size, max_all, mean_all.
  rewrite (indices_empty _ H). split; reflexivity.
Qed.

Lemma size_queries_reject_empty_span_witness :
  exists self,
    AdaptiveMask_init (Py.Int 16) 3 default_init_val [0; 1]%Z = inr self
    /\ get_current_max_size self true = inl RuntimeError
    /\ get_current_avg_size self true = inl ValueError.
Proof.
  eexists. split; [reflexivity|].
  apply size_queries_reject_empty_span. left. reflexivity.
Defined.

(** ** The relative biases of a call *)

Lemma clip_inside (i : Z) (n : nat) :
  (0 <= i <= Z.of_nat n)%Z -> Py.clip i n = Z.to_nat i.
Proof.
  intros H. unfold Py.clip.
  destruct (Z.ltb_spec i 0); [lia|].
  destruct (Z.ltb_spec i 0); [lia|].
  destruct (Z.ltb_spec (Z.of_nat n) i); [lia|]. reflexivity.
Qed.

Lemma slice_centred (K : nat) (k : Z) :
  Z.odd k = true -> (1 <= k <= Z.of_nat K)%Z ->
  Py.slice (Z.of_nat K / 2 - k / 2) (Z.of_nat K / 2 + k / 2 + 1) K
  = (Z.to_nat (Z.of_nat K / 2 - k / 2), Z.to_nat k).
Proof.
  intros Hodd Hk. apply Z.odd_spec in Hodd as [a ->].
  replace ((2 * a + 1) / 2)%Z with a
    by (apply Z.div_unique with 1%Z; lia).
  pose proof (Z.div_mod (Z.of_nat K) 2 ltac:(lia)) as Hdm.
  pose proof (Z.mod_pos_bound (Z.of_nat K) 2 ltac:(lia)) as Hmod.
  unfold Py.slice. rewrite !clip_inside by lia. f_equal. lia.
Qed.

(** X15.  In an adaptive layer whose two relative biases have a bias axis of the
    stored kernel size [K], a call with an odd kernel size [k <= K] takes
    from each the [k] entries around the stored centre: entry [j] of the
    slice is entry [j + (K // 2 - k // 2)] of the store, so the centre
    [k // 2] of the slice is the centre [K // 2] of the store. *)
Theorem biases_centred (self : AttentionConv) (ch K : nat) (k : Z) :
  adaptive_span self = true ->
  kernel_size self = Z.of_nat K ->
  shape (rel_h self) = [ch; 1; 1; K; 1]%nat ->
  shape (rel_w self) = [ch; 1; 1; 1; K]%nat ->
  Z.odd k = true ->
  (1 <= k <= Z.of_nat K)%Z ->
  exists h w,
    biases self k = inr (h, w)
    /\ shape h = [ch; 1; 1; Z.to_nat k; 1]%nat
    /\ shape w = [ch; 1; 1; 1; Z.to_nat k]%nat
    /\ (forall c j,
          data h [c; 0; 0; j; 0]%nat
          = data (rel_h self)
              [c; 0; 0; j + Z.to_nat (Z.of_nat K / 2 - k / 2); 0]%nat)
    /\ (forall c j,
          data w [c; 0; 0; 0; j]%nat
          = data (rel_w self)
              [c; 0; 0; 0; j + Z.to_nat (Z.of_nat K / 2 - k / 2)]%nat)
    /\ (Z.to_nat (k / 2) + Z.to_nat (Z.of_nat K / 2 - k / 2)
        = Z.to_nat (Z.of_nat K / 2))%nat.
Proof.
  intros Ha HK Hh Hw Hodd Hk.
  unfold biases, slice. rewrite Ha, HK, Hh, Hw. cbn [nth_error].
  rewrite (slice_centred K k Hodd Hk). cbn [bind ret].
  eexists. eexists. split; [reflexivity|].
  unfold narrow. cbn [shape data]. rewrite Hh, Hw. cbn [upd nth].
  split; [reflexivity|]. split; [reflexivity|].
  split; [reflexivity|]. split; [reflexivity|].
  apply Z.odd_spec in Hodd as [a Ea].
  assert (Hk2 : (k / 2 = a)%Z)
    by (symmetry; apply Z.div_unique with 1%Z; lia).
  pose proof (Z.div_mod (Z.of_nat K) 2 ltac:(lia)) as Hdm.
  pose proof (Z.mod_pos_bound (Z.of_nat K) 2 ltac:(lia)) as Hmod.
  lia.
Qed.

Lemma biases_centred_witness :
  exists am,
    AdaptiveMask_init (Py.Int 16) 3 4 [1; 1]%Z = inr am
    /\ exists h w,
         biases (layer 3 16 33 1 1 1 true am 0) 5 = inr (h, w)
         /\ shape h = [8; 1; 1; 5; 1]%nat
         /\ shape w = [8; 1; 1; 1; 5]%nat.
Proof.
  eexists. split; [reflexivity|].
  match goal with
  | |- exists h w, biases ?l 5 = _ /\ _ =>
      destruct (biases_centred l 8 33 5 eq_refl eq_refl eq_refl eq_refl eq_refl)
        as (h & w & Hb & Hsh & Hsw & _)
  end.
  - lia.
  - exists h, w. split; [exact Hb|]. split; [exact Hsh|exact Hsw].
Defined.

Lemma clip_above (i : Z) (n : nat) :
  (Z.of_nat n < i)%Z -> Py.clip i n = n.
Proof.
  intros H. unfold Py.clip.
  destruct (Z.ltb_spec i 0); [lia|].
  destruct (Z.ltb_spec i 0); [lia|].
  destruct (Z.ltb_spec (Z.of_nat n) i); [reflexivity|lia].
Qed.

Lemma clip_from_end (i : Z) (n : nat) :
  (- Z.of_nat n <= i < 0)%Z -> Py.clip i n = Z.to_nat (i + Z.of_nat n).
Proof.
  intros H. unfold Py.clip.
  destruct (Z.ltb_spec i 0); [|lia].
  destruct (Z.ltb_spec (i + Z.of_nat n) 0); [lia|].
  destruct (Z.ltb_spec (Z.of_nat n) (i + Z.of_nat n)); [lia|reflexivity].
Qed.

Lemma slice_overflow (K : nat) :
  Nat.odd K = true ->
  Py.slice (Z.of_nat K / 2 - (Z.of_nat K + 2) / 2)
    (Z.of_nat K / 2 + (Z.of_nat K + 2) / 2 + 1) K
  = ((K - 1)%nat, 1%nat).
Proof.
  intros Hodd. apply Nat.odd_spec in Hodd as [b ->].
  replace (Z.of_nat (2 * b + 1) / 2)%Z with (Z.of_nat b)
    by (apply Z.div_unique with 1%Z; lia).
  replace ((Z.of_nat (2 * b + 1) + 2) / 2)%Z with (Z.of_nat b + 1)%Z
    by (apply Z.div_unique with 1%Z; lia).
  unfold Py.slice.
  rewrite clip_from_end, clip_above by lia. f_equal; lia.
Qed.

(** X16.  One step past the store: in an adaptive layer whose relative biases
    have a bias axis of the stored, odd kernel size [K], a call with the
    kernel size [K + 2] gets a start index of -1, which Python counts from
    the end: the slice is the single last entry of the store, not the
    whole store. *)
Theorem biases_one_past_store (self : AttentionConv) (ch K : nat) :
  adaptive_span self = true ->
  kernel_size self = Z.of_nat K ->
  shape (rel_h self) = [ch; 1; 1; K; 1]%nat ->
  shape (rel_w self) = [ch; 1; 1; 1; K]%nat ->
  Nat.odd K = true ->
  exists h w,
    biases self (Z.of_nat K + 2) = inr (h, w)
    /\ shape h = [ch; 1; 1; 1; 1]%nat
    /\ shape w = [ch; 1; 1; 1; 1]%nat
    /\ (forall c, data h [c; 0; 0; 0; 0]%nat
                  = data (rel_h self) [c; 0; 0; K - 1; 0]%nat)
    /\ (forall c, data w [c; 0; 0; 0; 0]%nat
                  = data (rel_w self) [c; 0; 0; 0; K - 1]%nat).
Proof.
  intros Ha HK Hh Hw Hodd.
  unfold biases, slice. rewrite Ha, HK, Hh, Hw. cbn [nth_error].
  rewrite (slice_overflow K Hodd). cbn [bind ret].
  eexists. eexists. split; [reflexivity|].
  unfold narrow. cbn [shape data]. rewrite Hh, Hw. cbn [upd nth Nat.add].
  repeat split.
Qed.

Lemma biases_one_past_store_witness :
  exists am,
    AdaptiveMask_init (Py.Int 16) 3 4 [1; 1]%Z = inr am
    /\ window (layer 3 16 33 1 1 1 true am 0) = inr (35, 17)%Z
    /\ exists h w,
         biases (layer 3 16 33 1 1 1 true am 0) 35 = inr (h, w)
         /\ shape h = [8; 1; 1; 1; 1]%nat
         /\ shape w = [8; 1; 1; 1; 1]%nat.
Proof.
  eexists. split; [reflexivity|]. split; [reflexivity|].
  match goal with
  | |- exists h w, biases ?l 35 = _ /\ _ =>
      destruct (biases_one_past_store l 8 33 eq_refl eq_refl eq_refl eq_refl
                  eq_refl)
        as (h & w & Hb & Hsh & Hsw & _)
  end.
  exists h, w. split; [exact Hb|]. split; [exact Hsh|exact Hsw].
Defined.

(** ** The grid of a vector ramp *)

Lemma mapM_wrap_in_range (n : nat) (l : list Z) :
  (forall x, In x l -> (0 <= x < Z.of_nat n)%Z) ->
  mapM (wrap n) l = inr (map Z.to_nat l).
Proof.
  induction l as [|x l IH]; intros H; [reflexivity|].
  cbn [mapM map]. unfold wrap at 1.
  pose proof (H x (or_introl eq_refl)) as Hx.
  destruct (Z.leb_spec 0 x); [|lia].
  destruct (Z.ltb_spec x (Z.of_nat n)); [|lia].
  cbn [andb bind ret]. rewrite IH by (intros y Hy; apply H; right; exact Hy).
  reflexivity.
Qed.

Lemma put_const (ps : list (nat * nat)) (k : nat) (v : Q)
  (d : list nat -> Q) (idx : list nat) :
  put ps k (fun _ => v) d idx
  = if existsb (fun p => idx_eqb idx [fst p; snd p]) ps then v else d idx.
Proof.
  revert k d. induction ps as [|[r c] ps IH]; intros k d; [reflexivity|].
  cbn [put existsb fst snd]. rewrite IH.
  destruct (existsb _ ps); [rewrite orb_true_r; reflexivity|].
  rewrite orb_false_r. reflexivity.
Qed.

Lemma combine_coordinates (l : list (Z * Z)) :
  combine (map Z.to_nat (map fst l)) (map Z.to_nat (map snd l))
  = map (fun q => (Z.to_nat (fst q), Z.to_nat (snd q))) l.
Proof.
  induction l as [|q l IH]; [reflexivity|]. cbn [map combine]. rewrite IH.
  reflexivity.
Qed.

Lemma idx_eqb_pair (r c r' c' : nat) :
  idx_eqb [r; c] [r'; c'] = true <-> r = r' /\ c = c'.
Proof.
  cbn [idx_eqb]. rewrite andb_true_r, andb_true_iff, !Nat.eqb_eq. tauto.
Qed.

Lemma in_pass_spec (n i r c : nat) :
  (2 * i + 2 <= n)%nat ->
  in_pass n i r c = true
  <-> In (Z.of_nat r, Z.of_nat c)
        (ring_indices (Z.of_nat i) (Z.of_nat n - 1 - Z.of_nat i)).
Proof.
  intros Hn. rewrite ring_indices_rows. unfold in_pass.
  rewrite orb_true_iff, !andb_true_iff, !Nat.eqb_eq, !Nat.leb_le, Nat.ltb_lt.
  lia.
Qed.

Lemma existsb_pass (n i r c : nat) :
  (2 * i + 2 <= n)%nat ->
  existsb (fun p => idx_eqb [r; c] [fst p; snd p])
    (map (fun q => (Z.to_nat (fst q), Z.to_nat (snd q)))
       (ring_indices (Z.of_nat i) (Z.of_nat n - 1 - Z.of_nat i)))
  = in_pass n i r c.
Proof.
  intros Hn. apply eq_true_iff_eq. rewrite (in_pass_spec n i r c Hn).
  rewrite existsb_exists. split.
  - intros [p [Hp He]]. apply in_map_iff in Hp as [[qr qc] [<- Hq]].
    cbn [fst snd] in He. apply idx_eqb_pair in He as [-> ->].
    pose proof Hq as Hq'. apply ring_indices_rows in Hq'.
    rewrite !Z2Nat.id by lia. exact Hq.
  - intros H. exists (r, c). split.
    + apply in_map_iff. exists (Z.of_nat r, Z.of_nat c).
      cbn [fst snd]. rewrite !Nat2Z.id. auto.
    + apply idx_eqb_pair. auto.
Qed.

(** One pass of the loop over a vector ramp [w]. *)
Lemma ring_pass (w mask : tensor) (n len i : nat) (rest : list nat) :
  shape w = [len] -> shape mask = [n; n] ->
  (i < len)%nat -> (2 * i + 2 <= n)%nat ->
  exists mask',
    rings w (i :: rest) mask (Z.of_nat i) (Z.of_nat n - 1 - Z.of_nat i)
    = rings w rest mask' (Z.of_nat (S i)) (Z.of_nat n - 1 - Z.of_nat (S i))
    /\ shape mask' = [n; n]
    /\ forall r c,
         data mask' [r; c]
         = if in_pass n i r c then data w [i] else data mask [r; c].
Proof.
  intros Hw Hmask Hi Hn. cbn [rings].
  assert (Hin : forall q,
             In q (ring_indices (Z.of_nat i) (Z.of_nat n - 1 - Z.of_nat i)) ->
             (0 <= fst q < Z.of_nat n)%Z /\ (0 <= snd q < Z.of_nat n)%Z).
  { intros [qr qc] Hq. apply ring_indices_rows in Hq. cbn [fst snd]. lia. }
  unfold Py.unzip2.
  destruct (ring_indices (Z.of_nat i) (Z.of_nat n - 1 - Z.of_nat i))
    as [|q0 qs] eqn:Er.
  { exfalso.
    assert (H0 : In (Z.of_nat i, Z.of_nat i)
                   (ring_indices (Z.of_nat i) (Z.of_nat n - 1 - Z.of_nat i)))
      by (apply ring_indices_rows; lia).
    rewrite Er in H0. destruct H0. }
  rewrite <- Er in *. cbn [bind ret fst snd].
  unfold select0. rewrite Hw.
  destruct (Nat.ltb_spec i len) as [_|]; [|lia]. cbn [bind ret].
  unfold index_put2. rewrite Hmask. cbn [shape].
  rewrite !mapM_wrap_in_range.
  2:{ intros x Hx. apply in_map_iff in Hx as [q [<- Hq]]. apply (Hin q Hq). }
  2:{ intros x Hx. apply in_map_iff in Hx as [q [<- Hq]]. apply (Hin q Hq). }
  cbn [bind ret strip1 length Nat.sub repeat data].
  rewrite combine_coordinates.
  eexists. split.
  - replace (Z.of_nat i + 1)%Z with (Z.of_nat (S i)) by lia.
    replace (Z.of_nat n - 1 - Z.of_nat i - 1)%Z
      with (Z.of_nat n - 1 - Z.of_nat (S i))%Z by lia.
    reflexivity.
  - split; [reflexivity|]. intros r c. cbn [data].
    rewrite put_const, existsb_pass by exact Hn. reflexivity.
Qed.

Lemma in_pass_disjoint (n i j r c : nat) :
  (i < j)%nat -> (2 * j + 2 <= n)%nat ->
  in_pass n i r c = true -> in_pass n j r c = false.
Proof.
  intros Hij Hn Hi. apply not_true_is_false. intros Hj.
  unfold in_pass in Hi, Hj.
  rewrite orb_true_iff, !andb_true_iff, !Nat.eqb_eq, !Nat.leb_le, Nat.ltb_lt
    in Hi, Hj.
  lia.
Qed.

(** The loop over the rings [i, ..., i + cnt - 1] of a vector ramp [w]
    returns; a cell a pass lists holds the weight of that ring, every
    other cell is as before. *)
Lemma rings_rows (w : tensor) (n len : nat) :
  shape w = [len] -> (2 * len <= n)%nat ->
  forall (cnt i : nat) (mask : tensor),
    shape mask = [n; n] -> (i + cnt <= len)%nat ->
    exists m,
      rings w (seq i cnt) mask (Z.of_nat i) (Z.of_nat n - 1 - Z.of_nat i)
      = inr m
      /\ shape m = [n; n]
      /\ forall r c,
           (forall j, (i <= j < i + cnt)%nat -> in_pass n j r c = true ->
                      data m [r; c] = data w [j])
           /\ ((forall j, (i <= j < i + cnt)%nat -> in_pass n j r c = false) ->
               data m [r; c] = data mask [r; c]).
Proof.
  intros Hw Hlen. induction cnt as [|cnt IH]; intros i mask Hmask Hi.
  - exists mask. split; [reflexivity|]. split; [exact Hmask|].
    intros r c. split; [intros j Hj; lia|reflexivity].
  - cbn [seq].
    destruct (ring_pass w mask n len i (seq (S i) cnt) Hw Hmask)
      as (mask' & Estep & Hmask' & Hdata); [lia|lia|].
    rewrite Estep.
    destruct (IH (S i) mask' Hmask') as (m & Em & Hm & Hcells); [lia|].
    exists m. split; [exact Em|]. split; [exact Hm|].
    intros r c. destruct (Hcells r c) as [Hin Hout]. split.
    + intros j Hj Hp. destruct (Nat.eq_dec j i) as [->|Hne].
      * rewrite Hout, Hdata, Hp; [reflexivity|].
        intros j' Hj'. apply (in_pass_disjoint n i j' r c); [lia|lia|exact Hp].
      * apply Hin; [lia|exact Hp].
    + intros Hnone. rewrite Hout, Hdata.
      * rewrite (Hnone i) by lia. reflexivity.
      * intros j' Hj'. apply Hnone. lia.
Qed.

Lemma broadcast_vector_one (steps : nat) :
  broadcast_shapes [steps] [1%nat] = Some [steps].
Proof.
  unfold broadcast_shapes. cbn [rev app bshape_rev].
  destruct (steps =? 1)%nat; reflexivity.
Qed.

Lemma slice_last_half (steps n : nat) :
  (2 <= n)%nat ->
  exists a, Py.slice_last (Z.of_nat n / 2) steps
            = (a, Nat.min steps (n / 2))
            /\ (a + Nat.min steps (n / 2) = steps)%nat.
Proof.
  intros Hn. unfold Py.slice_last.
  assert (Hk : (Z.of_nat n / 2 = Z.of_nat (n / 2))%Z).
  { rewrite (Nat2Z.inj_div n 2). reflexivity. }
  assert (Hk1 : (1 <= n / 2)%nat).
  { apply (Nat.div_le_lower_bound n 2 1); lia. }
  rewrite Hk.
  destruct (Nat.le_gt_cases (n / 2) steps) as [Hle|Hgt].
  - rewrite clip_from_end by lia. exists (steps - n / 2)%nat.
    split; [f_equal; lia|lia].
  - unfold Py.clip.
    destruct (Z.ltb_spec (- Z.of_nat (n / 2)) 0); [|lia].
    destruct (Z.ltb_spec (- Z.of_nat (n / 2) + Z.of_nat steps) 0); [|lia].
    exists 0%nat. split; [f_equal; lia|lia].
Qed.

(** X17.  For a mask whose span parameter is one number (the default shape), on
    an input of width [n >= 2], the construction of the grid returns: the
    ramp is a vector, the slice keeps its last [min(max_size, n // 2)]
    entries [w], and the grid has the weight [w[j]] exactly on the cells
    the pass for ring [j] lists (row [j] and row [n-1-j], see [in_pass])
    and the weight 1 everywhere else. *)
Theorem mask_grid_vector_ramp (self : AdaptiveMask) (steps n : nat) :
  shape (mask_template self) = [steps] ->
  shape (current_val self) = [1%nat] ->
  (2 <= n)%nat ->
  exists w m,
    (do t <- ramp self; slice_last (Z.of_nat n / 2) t) = inr w
    /\ shape w = [Nat.min steps (n / 2)]
    /\ mask_grid self n = inr m
    /\ shape m = [n; n]
    /\ forall r c,
         (forall j, (j < Nat.min steps (n / 2))%nat ->
                    in_pass n j r c = true -> data m [r; c] = data w [j])
         /\ ((forall j, (j < Nat.min steps (n / 2))%nat ->
                        in_pass n j r c = false) ->
             data m [r; c] = 1).
Proof.
  intros Ht Hc Hn.
  destruct (slice_last_half steps n Hn) as (a & Es & Ha).
  unfold mask_grid, ramp, add, binop. cbn [pointwise shape].
  rewrite Ht, Hc, broadcast_vector_one. cbn [bind ret].
  unfold slice_last, clamp. cbn [pointwise shape]. rewrite Es.
  cbn [bind ret].
  match goal with
  | |- context [len ?u] => set (w0 := u)
  end.
  assert (Hw0 : shape w0 = [Nat.min steps (n / 2)]) by reflexivity.
  assert (Hl : (2 * Nat.min steps (n / 2) <= n)%nat).
  { pose proof (Nat.div_mod_eq n 2). pose proof (Nat.le_min_r steps (n / 2)).
    lia. }
  destruct (rings_rows w0 n _ Hw0 Hl (Nat.min steps (n / 2)) 0
              (full [n; n] 1) eq_refl (Nat.le_refl _))
    as (m & Em & Hm & Hcells).
  exists w0, m. split; [reflexivity|]. split; [exact Hw0|].
  unfold len. rewrite Hw0. cbn [bind ret].
  change (Z.of_nat 0) with 0%Z in Em. rewrite Z.sub_0_r in Em.
  split; [exact Em|]. split; [exact Hm|].
  intros r c. destruct (Hcells r c) as [Hin Hout]. split.
  - intros j Hj Hp. apply Hin; [lia|exact Hp].
  - intros Hnone. rewrite Hout; [reflexivity|].
    intros j Hj. apply Hnone. lia.
Qed.

Lemma mask_grid_vector_ramp_witness :
  exists self,
    AdaptiveMask_init (Py.Int 2) 1 default_init_val default_shape = inr self
    /\ exists w m,
         (do t <- ramp self; slice_last (Z.of_nat 5 / 2) t) = inr w
         /\ shape w = [2%nat]
         /\ mask_grid self 5 = inr m
         /\ shape m = [5; 5]%nat
         /\ data m [4; 3]%nat = data w [0%nat]
         /\ data m [2; 0]%nat = 1.
Proof.
  eexists. split; [reflexivity|].
  match goal with
  | |- exists w m, (do t <- ramp ?a; _) = _ /\ _ =>
      destruct (mask_grid_vector_ramp a 2 5 eq_refl eq_refl)
        as (w & m & Ew & Hw & Em & Hm & Hcells)
  end.
  - lia.
  - exists w, m. split; [exact Ew|]. split; [exact Hw|].
    split; [exact Em|]. split; [exact Hm|].
    destruct (Hcells 4 3)%nat as [Hin _]. destruct (Hcells 2 0)%nat as [_ Hout].
    split.
    + apply Hin; [cbn; lia|reflexivity].
    + apply Hout. intros j Hj.
      destruct j as [|[|j]]; [reflexivity|reflexivity|cbn in Hj; lia].
Defined.

(** ** The ramp *)

(** The template of a constructed mask: [max_size] entries, entry [i]
    equal to [i + 1 - max_size], so from [1 - max_size] up to 0 in steps
    of one. *)
Lemma constructed_template (max_size : Py.number) (ramp_size : Z) (init_val : Q)
  (dims : list Z) (self : AdaptiveMask) :
  AdaptiveMask_init max_size ramp_size init_val dims = inr self ->
  exists n,
    Py.value max_size == inject_Z (Z.of_nat n)
    /\ shape (mask_template self) = [n]
    /\ _max_size self = Py.value max_size
    /\ _ramp_size self = ramp_size
    /\ forall i, (i < n)%nat ->
         data (mask_template self) [i]
         == inject_Z (Z.of_nat i) + 1 - Py.value max_size.
Proof.
  unfold AdaptiveMask_init, zeros, linspace. intros H.
  destruct (sizes dims) as [|sz]; [discriminate H|]. cbn [bind] in H.
  destruct (steps_of max_size) as [|n] eqn:En; [discriminate H|].
  cbn [bind ret] in H. injection H as <-.
  pose proof (steps_of_value _ _ En) as Hn.
  exists n. split; [exact Hn|]. repeat (split; [reflexivity|]).
  intros i Hi. cbn [mask_template data].
  destruct (Nat.eqb_spec n 1) as [->|Hn1].
  - assert (i = 0)%nat as -> by lia. rewrite Hn.
    unfold Qeq. cbn. lia.
  - rewrite Hn.
    assert (Hd : ~ inject_Z (Z.of_nat n - 1) == 0).
    { unfold Qeq. cbn [Qnum Qden inject_Z]. lia. }
    assert (Hnum : 0 - (1 - inject_Z (Z.of_nat n))
                   == inject_Z (Z.of_nat n - 1)).
    { unfold Z.sub. rewrite inject_Z_plus, inject_Z_opp.
      change (inject_Z 1) with 1. ring. }
    rewrite Hnum. unfold Qdiv. rewrite Qmult_inv_r by exact Hd. ring.
Qed.

Lemma ramp_value_mono (a b z m r : Q) :
  0 < r -> a <= b ->
  Qmin (Qmax ((a + 1 - m + z * m) / r + 1) 0) 1
  <= Qmin (Qmax ((b + 1 - m + z * m) / r + 1) 0) 1.
Proof.
  intros Hr Hab.
  apply Q.min_le_compat_r, Q.max_le_compat_r, Qplus_le_compat; [|lra].
  unfold Qdiv. apply Qmult_le_compat_r; [lra|].
  apply Qinv_le_0_compat. lra.
Qed.

(** X18.  The ramp of a mask whose span parameter is one number [z]: it has
    [max_size] entries, entry [i] is
    [clamp((i + 1 - max_size + z * max_size) / ramp_size + 1, 0, 1)] (the
    ramp size not being zero); for a
    positive ramp size the entries never decrease with [i], and for a span
    that is not negative the last entry, the weight of the innermost ring,
    is 1. *)
Theorem ramp_profile (max_size : Py.number) (ramp_size : Z) (init_val : Q)
  (dims : list Z) (self : AdaptiveMask) (v : tensor) :
  AdaptiveMask_init max_size ramp_size init_val dims = inr self ->
  shape v = [1%nat] ->
  exists n t,
    Py.value max_size == inject_Z (Z.of_nat n)
    /\ ramp (with_span self v) = inr t
    /\ shape t = [n]
    /\ ((ramp_size <> 0)%Z ->
        forall i, (i < n)%nat ->
          data t [i]
          == Qmin (Qmax ((inject_Z (Z.of_nat i) + 1 - Py.value max_size
                          + data v [0%nat] * Py.value max_size)
                         / inject_Z ramp_size + 1) 0) 1)
    /\ ((0 < ramp_size)%Z ->
        forall i j, (i <= j < n)%nat -> data t [i] <= data t [j])
    /\ ((0 < ramp_size)%Z -> 0 <= data v [0%nat] ->
        forall i, S i = n -> data t [i] == 1).
Proof.
  intros Hinit Hv.
  destruct (constructed_template _ _ _ _ _ Hinit)
    as (n & Hn & Ht & Emax & Eramp & Htemp).
  unfold ramp, add, binop.
  cbn [with_span mask_template current_val _max_size _ramp_size pointwise shape].
  rewrite Ht, Hv, broadcast_vector_one, Emax, Eramp. cbn [bind ret].
  exists n. eexists. split; [exact Hn|]. split; [reflexivity|].
  split; [reflexivity|].
  assert (F : forall i, (i < n)%nat ->
            data (clamp 0 1
                    (pointwise (fun x => x / inject_Z ramp_size + 1)
                       (mkTensor [n]
                          (fun idx =>
                             data (mask_template self) (bidx [n] idx)
                             + data (pointwise
                                       (fun x => x * Py.value max_size) v)
                                 (bidx [1%nat] idx))))) [i]
            == Qmin (Qmax ((inject_Z (Z.of_nat i) + 1 - Py.value max_size
                            + data v [0%nat] * Py.value max_size)
                           / inject_Z ramp_size + 1) 0) 1).
  { intros i Hi. cbn [clamp pointwise data].
    rewrite (bidx_valid [n] [i]) by (repeat constructor; exact Hi).
    change (bidx [1%nat] [i]) with [0%nat].
    rewrite (Htemp i Hi). reflexivity. }
  split; [intros _; exact F|]. split.
  - intros Hr i j Hij. rewrite (F i), (F j) by lia.
    apply ramp_value_mono.
    + change 0 with (inject_Z 0). rewrite <- Zlt_Qlt. exact Hr.
    + rewrite <- Zle_Qle. lia.
  - intros Hr Hz i Hi. rewrite (F i) by lia.
    assert (Hr' : 0 < inject_Z ramp_size).
    { change 0 with (inject_Z 0). rewrite <- Zlt_Qlt. exact Hr. }
    assert (Hm : 0 <= Py.value max_size).
    { rewrite Hn. change 0 with (inject_Z 0). rewrite <- Zle_Qle. lia. }
    assert (Hx : 1 <= (inject_Z (Z.of_nat i) + 1 - Py.value max_size
                       + data v [0%nat] * Py.value max_size)
                      / inject_Z ramp_size + 1).
    { assert (H0 : 0 <= (inject_Z (Z.of_nat i) + 1 - Py.value max_size
                         + data v [0%nat] * Py.value max_size)
                        / inject_Z ramp_size).
      { unfold Qdiv. apply Qmult_le_0_compat.
        - assert (He : inject_Z (Z.of_nat i) + 1 - Py.value max_size == 0).
          { rewrite Hn, <- Hi, Nat2Z.inj_succ, <- Z.add_1_r, inject_Z_plus.
            change (inject_Z 1) with 1. ring. }
          rewrite He. nra.
        - apply Qinv_le_0_compat. lra. }
      lra. }
    rewrite (Q.max_l _ 0) by lra. apply Q.min_r. exact Hx.
Qed.

Lemma ramp_profile_witness :
  exists self,
    AdaptiveMask_init (Py.Int 4) 2 default_init_val default_shape = inr self
    /\ exists t,
         ramp (with_span self (full [1]%nat (1 # 2))) = inr t
         /\ shape t = [4%nat]
         /\ data t [1%nat] <= data t [2%nat]
         /\ data t [3%nat] == 1.
Proof.
  eexists. split; [reflexivity|].
  match goal with
  | |- exists t, ramp (with_span ?a ?v) = _ /\ _ =>
      destruct (ramp_profile (Py.Int 4) 2 default_init_val default_shape a v
                  eq_refl eq_refl)
        as (n & t & Hn & Et & Hs & _ & Hmono & Hlast)
  end.
  assert (n = 4%nat) as ->.
  { revert Hn. unfold Qeq. cbn [Py.value Qnum Qden inject_Z]. lia. }
  exists t. split; [exact Et|]. split; [exact Hs|]. split.
  - apply Hmono; lia.
  - apply Hlast; [lia|discriminate|reflexivity].
Defined.

(** ** An odd number of output channels *)

Lemma conv2d_shape (c : Conv2d) (x y : tensor) :
  conv2d c x = inr y ->
  exists b h w, shape y = [b; nth 0 (shape (weight c)) 0%nat; h; w].
Proof.
  unfold conv2d.
  destruct (shape x) as [|b [|cin [|h [|w [|? ?]]]]]; try discriminate.
  destruct (shape (weight c)) as [|co [|ci [|? [|? [|? ?]]]]]; try discriminate.
  destruct (cin =? ci)%nat; [|discriminate].
  intros H; injection H as <-. exists b, h, w. reflexivity.
Qed.

Lemma unfold_shape (dim : nat) (size step : Z) (t t' : tensor) :
  unfold dim size step t = inr t' ->
  exists cnt, shape t' = upd dim cnt (shape t) ++ [Z.to_nat size].
Proof.
  unfold unfold. destruct (nth_error (shape t) dim); [|discriminate].
  destruct (_ || _)%bool; [discriminate|].
  intros H; injection H as <-. eexists. reflexivity.
Qed.

(** Takes the next step of a computation that is to raise: a step that
    raises closes the goal. *)
Tactic Notation "raise_or_go" ident(E) :=
  match goal with
  | |- raises (bind ?m _) =>
      let r := fresh "r" in
      destruct m as [?|r] eqn:E;
      [eexists; reflexivity|];
      cbn [bind];
      try match type of r with (_ * _)%type => destruct r end
  end.

(** X19.  With an odd [out_channels] no forward call returns: in a layer whose
    key projection has [out_channels] output channels, the keys cannot be
    split into two halves. *)
Theorem odd_out_channels_never_forward (exp : Q -> Q) (self : AttentionConv)
  (c_in : nat) (x : tensor) :
  shape (weight (key_conv self))
  = [Z.to_nat (out_channels self); c_in; 1; 1]%nat ->
  Z.odd (out_channels self) = true ->
  (0 <= out_channels self)%Z ->
  raises (AttentionConv_forward exp self x).
Proof.
  intros Hw Hodd Hnn.
  unfold AttentionConv_forward.
  destruct (shape x) as [|b [|c [|h [|w [|? ?]]]]];
    try (eexists; reflexivity).
  raise_or_go Ewin. raise_or_go Epad. raise_or_go Equery.
  raise_or_go Ekey. raise_or_go Evalue.
  raise_or_go Eu2. raise_or_go Eu3.
  raise_or_go Ev2. raise_or_go Ev3. raise_or_go Erel.
  apply conv2d_shape in Ekey as (b' & h' & w' & Hk). rewrite Hw in Hk.
  cbn [nth] in Hk.
  apply unfold_shape in Eu2 as [cnt2 Hu2]. rewrite Hk in Hu2.
  cbn [upd app] in Hu2.
  apply unfold_shape in Eu3 as [cnt3 Hu3]. rewrite Hu2 in Hu3.
  cbn [upd app] in Hu3.
  unfold split. rewrite Hu3. cbn [nth_error].
  apply Z.odd_spec in Hodd as [m Hm].
  assert (Hhalf : (out_channels self / 2 = m)%Z)
    by (symmetry; apply Z.div_unique with 1%Z; lia).
  rewrite Hhalf.
  destruct (Z.ltb_spec m 0); [lia|].
  destruct (Z.eqb_spec m 0) as [Hm0|Hm0].
  - destruct (Nat.eqb_spec (Z.to_nat (out_channels self)) 0); [lia|].
    eexists. reflexivity.
  - assert (Hchunks : Nat.max ((Z.to_nat (out_channels self) + Z.to_nat m - 1)
                               / Z.to_nat m) 1
                      = 3%nat).
    { replace (Z.to_nat (out_channels self) + Z.to_nat m - 1)%nat
        with (3 * Z.to_nat m)%nat by lia.
      rewrite Nat.div_mul by lia. reflexivity. }
    rewrite Hchunks. cbn [seq map bind ret unpack2].
    eexists. reflexivity.
Qed.

Lemma odd_out_channels_never_forward_witness :
  exists am,
    AdaptiveMask_init (Py.Int 4) 3 4 [1; 1]%Z = inr am
    /\ raises (AttentionConv_forward (fun _ => 1)
                 (layer 3 3 3 1 1 1 false am 1) (full [1; 3; 8; 8]%nat 1)).
Proof.
  eexists. split; [reflexivity|].
  match goal with
  | |- raises (AttentionConv_forward ?e ?l ?x) =>
      apply (odd_out_channels_never_forward e l 3 x)
  end.
  - reflexivity.
  - reflexivity.
  - cbn. lia.
Defined.

(** ** The average size follows the span *)

Lemma Qsum_mono (l1 l2 : list Q) :
  Forall2 Qle l1 l2 -> Qsum l1 <= Qsum l2.
Proof.
  induction 1 as [|x y l1 l2 Hxy _ IH]; [apply Qle_refl|].
  cbn [Qsum fold_right]. apply Qplus_le_compat; assumption.
Qed.

Lemma map_pointwise_le (v1 v2 : tensor) (l : list (list nat)) :
  (forall idx, In idx l -> data v1 idx <= data v2 idx) ->
  Forall2 Qle (map (data v1) l) (map (data v2) l).
Proof.
  induction l as [|i l IH]; intros H; cbn [map]; constructor.
  - apply H. left. reflexivity.
  - apply IH. intros idx Hin. apply H. right. exact Hin.
Qed.

(** X20.  For a constructed mask and two values of its span parameter, of
    one non-empty shape, the first at most the second at every position:
    [get_current_avg_size] returns for both, with the same [include_ramp],
    each result lies in [[0, max_size]], and the first result is at most
    the second. *)
Theorem get_current_avg_size_monotone_bounded
  (max_size : Py.number) (ramp_size : Z) (init_val : Q) (dims : list Z)
  (self : AdaptiveMask) (v1 v2 : tensor) (include_ramp : bool) :
  AdaptiveMask_init max_size ramp_size init_val dims = inr self ->
  shape v1 = shape v2 ->
  indices (shape v1) <> [] ->
  (forall idx, In idx (indices (shape v1)) -> data v1 idx <= data v2 idx) ->
  exists s1 s2,
    get_current_avg_size (with_span self v1) include_ramp = inr s1
    /\ get_current_avg_size (with_span self v2) include_ramp = inr s2
    /\ 0 <= s1 <= Py.value max_size
    /\ 0 <= s2 <= Py.value max_size
    /\ s1 <= s2.
Proof.
  intros Hinit Hs Hne Hle.
  destruct (constructed_max_size_nonneg _ _ _ _ _ Hinit)
    as (n & _ & Hm & Emax & Eramp).
  pose proof (map_pointwise_le v1 v2 _ Hle) as Hall.
  unfold get_current_avg_size, mean_all.
  cbn [with_span current_val _max_size _ramp_size].
  rewrite Emax, Eramp, <- Hs.
  destruct (indices (shape v1)) as [|i l]; [congruence|].
  cbn [map] in *. cbn [bind ret].
  eexists; eexists. split; [reflexivity|]. split; [reflexivity|].
  split; [apply py_max_min_bounds; exact Hm|].
  split; [apply py_max_min_bounds; exact Hm|].
  apply py_max_min_mono. rewrite <- Zle_Qle.
  assert (Hc : (Py.ceil (Qsum (data v1 i :: map (data v1) l)
                         / inject_Z (Z.of_nat
                             (length (data v1 i :: map (data v1) l)))
                         * Py.value max_size)
                <= Py.ceil (Qsum (data v2 i :: map (data v2) l)
                            / inject_Z (Z.of_nat
                                (length (data v2 i :: map (data v2) l)))
                            * Py.value max_size))%Z).
  { apply Qceiling_resp_le, Qmult_le_compat_r; [|exact Hm].
    cbn [length]. rewrite !length_map. unfold Qdiv.
    apply Qmult_le_compat_r; [apply Qsum_mono; exact Hall|].
    apply Qinv_le_0_compat. change 0 with (inject_Z 0).
    rewrite <- Zle_Qle. lia. }
  destruct include_ramp; lia.
Qed.

Lemma get_current_avg_size_monotone_bounded_witness :
  exists self s1 s2,
    AdaptiveMask_init (Py.Int 16) 3 default_init_val [2; 1]%Z = inr self
    /\ get_current_avg_size (with_span self (full [2; 1]%nat (1 # 4))) true
       = inr s1
    /\ get_current_avg_size (with_span self (full [2; 1]%nat (3 # 4))) true
       = inr s2
    /\ 0 <= s1 <= 16
    /\ 0 <= s2 <= 16
    /\ s1 <= s2.
Proof.
  eexists.
  destruct (get_current_avg_size_monotone_bounded (Py.Int 16) 3 default_init_val
              [2; 1]%Z _ (full [2; 1]%nat (1 # 4)) (full [2; 1]%nat (3 # 4))
              true eq_refl eq_refl)
    as (s1 & s2 & H).
  - discriminate.
  - intros idx _. discriminate.
  - exists s1, s2. split; [reflexivity|exact H].
Defined.

(** ** An input with an empty last axis *)

Lemma rings_width_zero (t mask : tensor) (k : nat) :
  rings t (seq 0 (S k)) mask 0 (Z.of_nat 0 - 1) = inl ValueError.
Proof. reflexivity. Qed.

Lemma mask_grid_width_zero (am : AdaptiveMask) (n : nat) (s : list nat) :
  shape (mask_template am) = [n] ->
  shape (current_val am) = s ->
  (2 <= n)%nat ->
  ~ In 0%nat s ->
  raises (mask_grid am 0).
Proof.
  intros Ht Hc Hn Hz.
  unfold raises, mask_grid, ramp, add, binop. cbn [pointwise shape].
  rewrite Ht, Hc.
  destruct (broadcast_shapes [n] s) as [r|] eqn:Eb; [|eexists; reflexivity].
  cbn [bind ret]. unfold slice_last, clamp. cbn [pointwise shape].
  change (Z.of_nat 0 / 2)%Z with 0%Z.
  destruct (broadcast_vector n s r Hn Eb) as [[-> _]|(d0 & q & -> & Hin & _)].
  - rewrite slice_last_zero. cbn [bind ret len narrow shape upd].
    destruct n as [|n']; [lia|].
    exists ValueError. apply rings_width_zero.
  - rewrite slice_last_zero. cbn [bind ret len narrow shape upd].
    destruct d0 as [|d]; [contradiction|].
    exists ValueError. apply rings_width_zero.
Qed.

(** X21.  A mask constructed with [max_size >= 2] and a span parameter
    without an empty axis raises on an input whose last axis is empty: the
    slice [-(0 // 2):] keeps the whole ramp, and the first pass of the loop
    finds no index to unpack. *)
Theorem forward_empty_width_raises (max_size : Py.number) (ramp_size : Z)
  (init_val : Q) (dims : list Z) (am : AdaptiveMask) (x : tensor) :
  AdaptiveMask_init max_size ramp_size init_val dims = inr am ->
  2 <= Py.value max_size ->
  ~ In 0%Z dims ->
  last_dim x = inr 0%nat ->
  raises (AdaptiveMask_forward am x).
Proof.
  intros Hinit Hmax Hz Hx.
  apply AdaptiveMask_init_inv in Hinit as (n & template & Hsteps & Hd & ->).
  pose proof (steps_of_ge_2 _ _ Hsteps Hmax) as Hn.
  assert (Hz' : ~ In 0%nat (map Z.to_nat dims)).
  { intros Hin. apply in_map_iff in Hin as (d & Hd0 & Hin).
    rewrite Forall_forall in Hd. specialize (Hd d Hin).
    apply Hz. replace 0%Z with d by lia. exact Hin. }
  match goal with |- context [AdaptiveMask_forward ?a x] => set (am := a) end.
  destruct (mask_grid_width_zero am n (map Z.to_nat dims)
              eq_refl eq_refl Hn Hz') as [e He].
  unfold raises, AdaptiveMask_forward. rewrite Hx. cbn [bind].
  rewrite He. cbn [bind]. exists e. reflexivity.
Qed.

Lemma forward_empty_width_raises_witness :
  exists am,
    AdaptiveMask_init (Py.Int 2) 1 default_init_val default_shape = inr am
    /\ raises (AdaptiveMask_forward am (full [3; 0]%nat 1)).
Proof.
  eexists. split; [reflexivity|].
  apply (forward_empty_width_raises (Py.Int 2) 1 default_init_val default_shape _
           (full [3; 0]%nat 1) eq_refl).
  - discriminate.
  - intros [H|[]]. discriminate H.
  - reflexivity.
Defined.

(** ** What the constructors accept *)

(** X22.  No call of [AttentionConv]'s constructor returns a layer.  A zero
    [groups] stops it in the assertion's [%]; an [out_channels] that is no
    multiple of [groups] in the assertion; and with a positive [groups], a
    multiple of it for [out_channels] and sizes that are not negative, the
    error is the [TypeError] of [linspace], which gets the float
    [image_size/2] for its step count. *)
Theorem construction_never_returns (rnd : draws) (c_in c_out k s p g : Z)
  (bias : bool) (R : Z) (z_init : Q) (image_size : Z) (adaptive : bool) :
  raises
    (AttentionConv_init rnd c_in c_out k s p g bias R z_init image_size
       adaptive)
  /\ (g = 0%Z ->
      AttentionConv_init rnd c_in c_out k s p g bias R z_init image_size
        adaptive = inl ZeroDivisionError)
  /\ (g <> 0%Z -> (c_out mod g <> 0)%Z ->
      AttentionConv_init rnd c_in c_out k s p g bias R z_init image_size
        adaptive = inl AssertionError)
  /\ ((0 < g)%Z -> (c_out mod g = 0)%Z -> (0 <= c_out)%Z -> (0 <= k)%Z ->
      AttentionConv_init rnd c_in c_out k s p g bias R z_init image_size
        adaptive = inl TypeError).
Proof.
  split; [|split; [|split]].
  - destruct (AttentionConv_init rnd c_in c_out k s p g bias R z_init
                image_size adaptive) as [e|l] eqn:E.
    + exists e. reflexivity.
    + exfalso. exact (AttentionConv_init_no_layer _ _ _ _ _ _ _ _ _ _ _ _ _ E).
  - intros ->. reflexivity.
  - intros Hg Hm. unfold AttentionConv_init, relative_biases, Py.mod_.
    destruct (Z.eqb_spec g 0) as [|_]; [contradiction|]. cbn [bind ret].
    destruct (Z.eqb_spec (c_out mod g) 0) as [|_]; [contradiction|].
    reflexivity.
  - apply AttentionConv_init_TypeError.
Qed.

(** X23.  [AdaptiveMask]'s constructor, given a shape of at least one size,
    returns exactly when [max_size] is an [int] that is not negative and
    no size of the shape is negative; with such a shape a float [max_size]
    is refused with a [TypeError], whatever its value, and a negative
    [int] with a [RuntimeError]. *)
Theorem mask_construction_accepts (max_size : Py.number) (ramp_size : Z)
  (init_val : Q) (dims : list Z) :
  dims <> [] ->
  ((exists am, AdaptiveMask_init max_size ramp_size init_val dims = inr am)
   <-> (exists n, max_size = Py.Int n /\ (0 <= n)%Z)
       /\ Forall (fun d => 0 <= d)%Z dims)
  /\ (Forall (fun d => 0 <= d)%Z dims ->
      (forall q, max_size = Py.Float q ->
         AdaptiveMask_init max_size ramp_size init_val dims = inl TypeError)
      /\ (forall n, max_size = Py.Int n -> (n < 0)%Z ->
            AdaptiveMask_init max_size ramp_size init_val dims
            = inl RuntimeError)).
Proof.
  intros _.
  assert (Hsz : Forall (fun d => 0 <= d)%Z dims ->
                sizes dims = inr (map Z.to_nat dims)).
  { intros Hd. unfold sizes.
    destruct (existsb (fun d => d <? 0)%Z dims) eqn:E; [|reflexivity].
    apply existsb_exists in E as (d & Hin & Hlt).
    rewrite Forall_forall in Hd. specialize (Hd d Hin).
    apply Z.ltb_lt in Hlt. lia. }
  split; [split|].
  - intros [am H].
    apply AdaptiveMask_init_inv in H as (n & template & Hs & Hd & _).
    split; [|exact Hd].
    unfold steps_of in Hs. destruct max_size as [z|q]; [|discriminate Hs].
    destruct (Z.ltb_spec z 0); [discriminate Hs|].
    exists z. split; [reflexivity|assumption].
  - intros [(n & -> & Hn) Hd].
    unfold AdaptiveMask_init, zeros, linspace, steps_of.
    rewrite (Hsz Hd). cbn [bind ret].
    destruct (Z.ltb_spec n 0); [lia|]. cbn [bind ret].
    eexists. reflexivity.
  - intros Hd. split.
    + intros q ->. rewrite AdaptiveMask_init_float, (Hsz Hd). reflexivity.
    + intros n -> Hn.
      unfold AdaptiveMask_init, zeros, linspace, steps_of.
      rewrite (Hsz Hd). cbn [bind ret].
      destruct (Z.ltb_spec n 0); [reflexivity|lia].
Qed.

Lemma mask_construction_accepts_witness :
  ((exists am,
      AdaptiveMask_init (Py.Int 16) 3 default_init_val default_shape = inr am)
   <-> (exists n, Py.Int 16 = Py.Int n /\ (0 <= n)%Z)
       /\ Forall (fun d => 0 <= d)%Z default_shape)
  /\ AdaptiveMask_init (Py.Float 16) 3 default_init_val default_shape
     = inl TypeError.
Proof.
  destruct (mask_construction_accepts (Py.Int 16) 3 default_init_val
              default_shape) as [Hiff _]; [discriminate|].
  split; [exact Hiff|].
  destruct (mask_construction_accepts (Py.Float 16) 3 default_init_val
              default_shape) as [_ Hf]; [discriminate|].
  assert (Hd : Forall (fun d => 0 <= d)%Z default_shape).
  { repeat constructor. discriminate. }
  exact (proj1 (Hf Hd) 16 eq_refl).
Defined.
